(** * Phoenix Locksmith navigation script (js/navbar.js)

    A shallow embedding of the navigation behaviour layer: the document is
    a store of elements addressed by their position in document order, the
    script's functions are programs of a small state-and-exception monad
    (a null dereference raises a TypeError and keeps the mutations made so
    far), and the listeners registered by [init] drive a step relation. *)

From Stdlib Require Import ZArith.
From stdpp Require Import gmap strings list fin_maps.

Local Open Scope string_scope.

(** ** The document *)

Module Dom.

(** An element: lower-case tag name, parent element (by index in the
    document), class list and attributes. *)
Record Element := mkElement {
  tagName : string;
  parentNode : option nat;
  classList : gset string;
  attributes : gmap string string
}.

(** The document's elements, in document order; an element reference is an
    index in this list. *)
Abbreviation Document := (list Element).

(** The selectors the script uses, with the text they are written as. *)
Inductive Selector :=
  | ByClass (c : string)
  | TagWithAttr (tag attr : string)
  | TagWithoutAttr (tag attr : string).

Definition selector_text (sel : Selector) : string :=
  match sel with
  | ByClass c => "." +:+ c
  | TagWithAttr tag attr => tag +:+ "[" +:+ attr +:+ "]"
  | TagWithoutAttr tag attr => tag +:+ ":not([" +:+ attr +:+ "])"
  end.

Definition matches (sel : Selector) (e : Element) : Prop :=
  match sel with
  | ByClass c => c ∈ classList e
  | TagWithAttr tag attr => tagName e = tag ∧ is_Some (attributes e !! attr)
  | TagWithoutAttr tag attr => tagName e = tag ∧ attributes e !! attr = None
  end.

#[export] Instance matches_dec sel e : Decision (matches sel e).
Proof. destruct sel; simpl; apply _. Defined.

Definition matches_at (doc : Document) (sel : Selector) (i : nat) : Prop :=
  ∃ e, doc !! i = Some e ∧ matches sel e.

#[export] Instance matches_at_dec doc sel i : Decision (matches_at doc sel i).
Proof.
  unfold matches_at. destruct (doc !! i) as [e|].
  - destruct (decide (matches sel e)) as [H|H].
    + left. eauto.
    + right. intros (e' & [= <-] & ?). auto.
  - right. intros (e' & [=] & _).
Defined.

(** [i], its parent, its grandparent, ... (at most [fuel] of them). *)
Fixpoint ancestors_from (fuel : nat) (doc : Document) (i : nat) : list nat :=
  match fuel with
  | O => []
  | S fuel' =>
      i :: match doc !! i ≫= parentNode with
           | Some p => ancestors_from fuel' doc p
           | None => []
           end
  end.

Definition inclusive_ancestors (doc : Document) (i : nat) : list nat :=
  ancestors_from (length doc) doc i.

(** [a.contains(b)]: [b] is [a] or a descendant of [a]. *)
Definition contains (doc : Document) (a b : nat) : Prop :=
  a ∈ inclusive_ancestors doc b.

#[export] Instance contains_dec doc a b : Decision (contains doc a b).
Proof. unfold contains. apply _. Defined.

(** [b] is a descendant of [a], [a] itself excluded. *)
Definition descendant (doc : Document) (a b : nat) : Prop :=
  b ≠ a ∧ contains doc a b.

#[export] Instance descendant_dec doc a b : Decision (descendant doc a b).
Proof. unfold descendant. apply _. Defined.

(** [document.querySelectorAll(sel)]. *)
Definition select_all (doc : Document) (sel : Selector) : list nat :=
  filter (matches_at doc sel) (seq 0 (length doc)).

(** [root.querySelectorAll(sel)]. *)
Definition select_all_in (doc : Document) (root : nat) (sel : Selector)
  : list nat :=
  filter (descendant doc root) (select_all doc sel).

(** [document.querySelector(sel)] and [root.querySelector(sel)]. *)
Definition select (doc : Document) (sel : Selector) : option nat :=
  head (select_all doc sel).

Definition select_in (doc : Document) (root : nat) (sel : Selector)
  : option nat :=
  head (select_all_in doc root sel).

(** [start.closest(sel)]. *)
Definition closest (doc : Document) (start : nat) (sel : Selector)
  : option nat :=
  head (filter (matches_at doc sel) (inclusive_ancestors doc start)).

(** Reading classes and attributes. *)
Definition has_class (doc : Document) (i : nat) (c : string) : bool :=
  match doc !! i with
  | Some e => bool_decide (c ∈ classList e)
  | None => false
  end.

Definition attribute (doc : Document) (i : nat) (a : string) : option string :=
  doc !! i ≫= λ e, attributes e !! a.

(** Writing classes and attributes. *)
Definition with_classes (f : gset string → gset string) (e : Element)
  : Element :=
  mkElement (tagName e) (parentNode e) (f (classList e)) (attributes e).

Definition with_attribute (a v : string) (e : Element) : Element :=
  mkElement (tagName e) (parentNode e) (classList e) (<[a:=v]> (attributes e)).

Definition add_class (i : nat) (c : string) (doc : Document) : Document :=
  alter (with_classes (λ cs, cs ∪ {[c]})) i doc.

Definition remove_class (i : nat) (c : string) (doc : Document) : Document :=
  alter (with_classes (λ cs, cs ∖ {[c]})) i doc.

Definition toggle_class (i : nat) (c : string) (doc : Document) : Document :=
  if has_class doc i c then remove_class i c doc else add_class i c doc.

Definition set_attribute (i : nat) (a v : string) (doc : Document)
  : Document :=
  alter (with_attribute a v) i doc.

End Dom.

Import Dom.

(** ** The script *)

Module Navbar.

Inductive QueryMethod := QuerySelector | QuerySelectorAll | Closest.

Inductive EventTarget := OnElement (i : nat) | OnDocument | OnWindow.

(** The functions that [init] registers as listeners. *)
Inductive Handler :=
  | ToggleMobileMenu
  | DropdownClick (dropdown : nat)
  | DropdownKeyboard
  | DropdownMouseEnter (dropdown : nat)
  | DropdownMouseLeave (dropdown : nat)
  | NavLinkClick
  | ClickOutside
  | Resize
  | EscapeKey.

Record Listener := mkListener {
  listensOn : EventTarget;
  eventType : string;
  handler : Handler
}.

Record Event := mkEvent { target : nat; key : string }.

(** The constants of the module, bound when the script is loaded. *)
Record Env := mkEnv {
  menuToggle : option nat;
  navMenu : option nat;
  navDropdowns : list nat;
  body : option nat
}.

(** The page and the module's two variables. [pendingFrames] holds the
    handles of the animation-frame callbacks requested by [handleResize]
    and not yet run or cancelled; [queryLog] records the selector text of
    every query made. [focusable] is the browser's answer to a call of
    [focus()]: whether the element is a focusable area. A link without
    [href] or [tabindex] is not one, nor is an element that is not
    rendered; the document of this model has no style sheet, so the
    answer is the browser's to give, and the script never writes it. *)
Record State := mkState {
  dom : Document;
  documentBody : option nat;
  innerWidth : Z;
  isDesktop : bool;
  resizeTimeout : option nat;
  frameCounter : nat;
  pendingFrames : list nat;
  activeElement : option nat;
  defaultPrevented : bool;
  listeners : list Listener;
  queryLog : list (QueryMethod * string);
  focusable : nat → bool
}.

Definition set_dom (d : Document) (s : State) : State :=
  mkState d (documentBody s) (innerWidth s) (isDesktop s) (resizeTimeout s)
    (frameCounter s) (pendingFrames s) (activeElement s) (defaultPrevented s)
    (listeners s) (queryLog s) (focusable s).

Definition set_innerWidth (w : Z) (s : State) : State :=
  mkState (dom s) (documentBody s) w (isDesktop s) (resizeTimeout s)
    (frameCounter s) (pendingFrames s) (activeElement s) (defaultPrevented s)
    (listeners s) (queryLog s) (focusable s).

Definition set_isDesktop (b : bool) (s : State) : State :=
  mkState (dom s) (documentBody s) (innerWidth s) b (resizeTimeout s)
    (frameCounter s) (pendingFrames s) (activeElement s) (defaultPrevented s)
    (listeners s) (queryLog s) (focusable s).

Definition set_resizeTimeout (r : option nat) (s : State) : State :=
  mkState (dom s) (documentBody s) (innerWidth s) (isDesktop s) r
    (frameCounter s) (pendingFrames s) (activeElement s) (defaultPrevented s)
    (listeners s) (queryLog s) (focusable s).

Definition set_frames (counter : nat) (pending : list nat) (s : State)
  : State :=
  mkState (dom s) (documentBody s) (innerWidth s) (isDesktop s)
    (resizeTimeout s) counter pending (activeElement s) (defaultPrevented s)
    (listeners s) (queryLog s) (focusable s).

Definition set_activeElement (a : option nat) (s : State) : State :=
  mkState (dom s) (documentBody s) (innerWidth s) (isDesktop s)
    (resizeTimeout s) (frameCounter s) (pendingFrames s) a
    (defaultPrevented s) (listeners s) (queryLog s) (focusable s).

Definition set_defaultPrevented (b : bool) (s : State) : State :=
  mkState (dom s) (documentBody s) (innerWidth s) (isDesktop s)
    (resizeTimeout s) (frameCounter s) (pendingFrames s) (activeElement s) b
    (listeners s) (queryLog s) (focusable s).

Definition set_listeners (ls : list Listener) (s : State) : State :=
  mkState (dom s) (documentBody s) (innerWidth s) (isDesktop s)
    (resizeTimeout s) (frameCounter s) (pendingFrames s) (activeElement s)
    (defaultPrevented s) ls (queryLog s) (focusable s).

Definition set_queryLog (q : list (QueryMethod * string)) (s : State)
  : State :=
  mkState (dom s) (documentBody s) (innerWidth s) (isDesktop s)
    (resizeTimeout s) (frameCounter s) (pendingFrames s) (activeElement s)
    (defaultPrevented s) (listeners s) q (focusable s).

(** *** The monad: state, and the TypeError of a null dereference *)

Inductive Completion (A : Type) :=
  | Normal (a : A)
  | TypeError.
Arguments Normal {A} a.
Arguments TypeError {A}.

Definition Script (A : Type) : Type := State → Completion A * State.

#[export] Instance script_ret : MRet Script :=
  λ A a s, (Normal a, s).

#[export] Instance script_bind : MBind Script :=
  λ A B f m s,
    match m s with
    | (Normal a, s') => f a s'
    | (TypeError, s') => (TypeError, s')
    end.

Definition throw {A} : Script A := λ s, (TypeError, s).
Definition gets {A} (f : State → A) : Script A := λ s, (Normal (f s), s).
Definition modify (f : State → State) : Script unit := λ s, (Normal (), f s).

(** The state a program ends in, and whether it ended normally. *)
Definition exec {A} (m : Script A) (s : State) : State := snd (m s).
Definition completes {A} (m : Script A) (s : State) : Prop :=
  ∃ a, fst (m s) = Normal a.

Fixpoint forEach {A} (l : list A) (f : A → Script unit) : Script unit :=
  match l with
  | [] => mret ()
  | x :: l' => f x;; forEach l' f
  end.

(** Using a possibly-null reference as the receiver of a member access. *)
Definition nonNull (r : option nat) : Script nat :=
  match r with
  | Some i => mret i
  | None => throw
  end.

(** *** The DOM interface *)

Definition logQuery (m : QueryMethod) (sel : Selector) : Script unit :=
  modify (λ s, set_queryLog (queryLog s ++ [(m, selector_text sel)]) s).

Definition querySelector (sel : Selector) : Script (option nat) :=
  logQuery QuerySelector sel;; gets (λ s, select (dom s) sel).

Definition querySelectorAll (sel : Selector) : Script (list nat) :=
  logQuery QuerySelectorAll sel;; gets (λ s, select_all (dom s) sel).

Definition querySelectorIn (root : nat) (sel : Selector)
  : Script (option nat) :=
  logQuery QuerySelector sel;; gets (λ s, select_in (dom s) root sel).

Definition querySelectorAllIn (root : nat) (sel : Selector)
  : Script (list nat) :=
  logQuery QuerySelectorAll sel;; gets (λ s, select_all_in (dom s) root sel).

Definition closestTo (start : nat) (sel : Selector) : Script (option nat) :=
  logQuery Closest sel;; gets (λ s, closest (dom s) start sel).

Definition containsNode (a b : nat) : Script bool :=
  gets (λ s, bool_decide (contains (dom s) a b)).

Definition getAttribute (i : nat) (a : string) : Script (option string) :=
  gets (λ s, attribute (dom s) i a).

Definition setAttribute (i : nat) (a v : string) : Script unit :=
  modify (λ s, set_dom (set_attribute i a v (dom s)) s).

Definition classList_contains (i : nat) (c : string) : Script bool :=
  gets (λ s, has_class (dom s) i c).

Definition classList_add (i : nat) (c : string) : Script unit :=
  modify (λ s, set_dom (add_class i c (dom s)) s).

Definition classList_remove (i : nat) (c : string) : Script unit :=
  modify (λ s, set_dom (remove_class i c (dom s)) s).

Definition classList_toggle (i : nat) (c : string) : Script unit :=
  modify (λ s, set_dom (toggle_class i c (dom s)) s).

Definition preventDefault : Script unit :=
  modify (set_defaultPrevented true).

Definition addEventListener (tgt : EventTarget) (ty : string) (h : Handler)
  : Script unit :=
  modify (λ s, set_listeners (listeners s ++ [mkListener tgt ty h]) s).

(** [requestAnimationFrame]: the document's callback identifier is
    incremented and the result is the handle of the new callback. *)
Definition requestAnimationFrame : Script nat :=
  λ s, let h := S (frameCounter s) in
       (Normal h, set_frames h (pendingFrames s ++ [h]) s).

Definition cancelAnimationFrame (h : nat) : Script unit :=
  modify (λ s, set_frames (frameCounter s)
                 (filter (λ h', h' ≠ h) (pendingFrames s)) s).

(** A boolean passed where a string is expected. *)
Definition string_of_bool (b : bool) : string :=
  if b then "true" else "false".

Definition when (b : bool) (m : Script unit) : Script unit :=
  if b then m else mret ().

(** [if (r) { k r }] for a possibly-null element reference. *)
Definition whenPresent (r : option nat) (k : nat → Script unit)
  : Script unit :=
  match r with
  | Some i => k i
  | None => mret ()
  end.

(** [focus()] runs the focusing steps: on an element that is not a
    focusable area it does nothing. *)
Definition focus (i : nat) : Script unit :=
  canFocus ← gets (λ s, focusable s i);
  when canFocus (modify (set_activeElement (Some i))).

(** *** navbar.js *)

Definition DESKTOP_BREAKPOINT : Z := 1024.

Definition dropdownToggleSelector : Selector := TagWithAttr "a" "aria-haspopup".

(** Lines 10-20: the module's constants and variables. *)
Definition load : Script Env :=
  menuToggle ← querySelector (ByClass "menu-toggle");
  navMenu ← querySelector (ByClass "nav-menu");
  navDropdowns ← querySelectorAll (ByClass "nav-dropdown");
  body ← gets documentBody;
  modify (λ s, set_isDesktop
                 (bool_decide (DESKTOP_BREAKPOINT ≤ innerWidth s)%Z) s);;
  modify (set_resizeTimeout None);;
  mret (mkEnv menuToggle navMenu navDropdowns body).

Section Functions.

Variable env : Env.

Definition updateDesktopState : Script unit :=
  modify (λ s, set_isDesktop
                 (bool_decide (DESKTOP_BREAKPOINT ≤ innerWidth s)%Z) s).

Definition closeAllDropdowns : Script unit :=
  forEach (navDropdowns env) (λ dropdown,
    classList_remove dropdown "is-open";;
    dropdownToggle ← querySelectorIn dropdown dropdownToggleSelector;
    whenPresent dropdownToggle (λ t,
      setAttribute t "aria-expanded" "false")).

Definition toggleMobileMenu : Script unit :=
  t ← nonNull (menuToggle env);
  v ← getAttribute t "aria-expanded";
  let isOpen := bool_decide (v = Some "true") in
  setAttribute t "aria-expanded" (string_of_bool (negb isOpen));;
  m ← nonNull (navMenu env);
  classList_toggle m "is-active";;
  b ← nonNull (body env);
  classList_toggle b "menu-open";;
  when isOpen closeAllDropdowns.

Definition closeMobileMenu : Script unit :=
  t ← nonNull (menuToggle env);
  setAttribute t "aria-expanded" "false";;
  m ← nonNull (navMenu env);
  classList_remove m "is-active";;
  b ← nonNull (body env);
  classList_remove b "menu-open";;
  closeAllDropdowns.

(** Lines 83-91: the loop of [toggleDropdown] that closes the others. *)
Definition closeOtherDropdowns (dropdown : nat) : Script unit :=
  forEach (navDropdowns env) (λ d,
    when (bool_decide (d ≠ dropdown))
      (classList_remove d "is-open";;
       toggle ← querySelectorIn d dropdownToggleSelector;
       whenPresent toggle (λ t,
         setAttribute t "aria-expanded" "false"))).

Definition toggleDropdown (dropdown : nat) (event : Event) : Script unit :=
  dropdownToggle ← querySelectorIn dropdown dropdownToggleSelector;
  desktop ← gets isDesktop;
  when (negb desktop)
    (preventDefault;;
     isOpen ← classList_contains dropdown "is-open";
     closeOtherDropdowns dropdown;;
     classList_toggle dropdown "is-open";;
     t ← nonNull dropdownToggle;
     setAttribute t "aria-expanded" (string_of_bool (negb isOpen))).

Definition handleClickOutside (event : Event) : Script unit :=
  m ← nonNull (navMenu env);
  isMenuOpen ← classList_contains m "is-active";
  clickedInsideMenu ← containsNode m (target event);
  t ← nonNull (menuToggle env);
  clickedOnToggle ← containsNode t (target event);
  when (isMenuOpen && negb clickedInsideMenu && negb clickedOnToggle)
    closeMobileMenu.

(** Lines 123-128: the callback that [handleResize] schedules. *)
Definition resizeCallback : Script unit :=
  updateDesktopState;;
  desktop ← gets isDesktop;
  when desktop closeMobileMenu.

(** A handle is a number; [if (resizeTimeout)] is false for null and 0. *)
Definition truthy (r : option nat) : bool :=
  match r with
  | Some (S _) => true
  | _ => false
  end.

Definition handleResize : Script unit :=
  r ← gets resizeTimeout;
  match r with
  | Some h => when (truthy r) (cancelAnimationFrame h)
  | None => mret ()
  end;;
  h ← requestAnimationFrame;
  modify (set_resizeTimeout (Some h)).

Definition handleEscapeKey (event : Event) : Script unit :=
  when (bool_decide (key event = "Escape")) closeMobileMenu.

Definition handleDropdownKeyboard (event : Event) : Script unit :=
  dropdown ← closestTo (target event) (ByClass "nav-dropdown");
  whenPresent dropdown (λ dropdown,
    when (bool_decide (key event = "Enter") || bool_decide (key event = " "))
      (desktop ← gets isDesktop;
       when (negb desktop) (toggleDropdown dropdown event));;
    when (bool_decide (key event = "Escape"))
      (classList_remove dropdown "is-open";;
       toggle ← querySelectorIn dropdown dropdownToggleSelector;
       whenPresent toggle (λ t,
         setAttribute t "aria-expanded" "false";;
         focus t))).

(** Lines 190-198 and 200-208: the hover listeners of a dropdown. *)
Definition dropdownMouseEnter (dropdown : nat) : Script unit :=
  desktop ← gets isDesktop;
  when desktop
    (classList_add dropdown "is-open";;
     toggle ← querySelectorIn dropdown dropdownToggleSelector;
     whenPresent toggle (λ t, setAttribute t "aria-expanded" "true")).

Definition dropdownMouseLeave (dropdown : nat) : Script unit :=
  desktop ← gets isDesktop;
  when desktop
    (classList_remove dropdown "is-open";;
     toggle ← querySelectorIn dropdown dropdownToggleSelector;
     whenPresent toggle (λ t, setAttribute t "aria-expanded" "false")).

(** Lines 213-217: the click listener of a plain navigation link. *)
Definition navLinkClick : Script unit :=
  desktop ← gets isDesktop;
  when (negb desktop) closeMobileMenu.

Definition init : Script unit :=
  whenPresent (menuToggle env) (λ t,
    addEventListener (OnElement t) "click" ToggleMobileMenu);;
  forEach (navDropdowns env) (λ dropdown,
    dropdownToggle ← querySelectorIn dropdown dropdownToggleSelector;
    whenPresent dropdownToggle (λ t,
      addEventListener (OnElement t) "click" (DropdownClick dropdown);;
      addEventListener (OnElement t) "keydown" DropdownKeyboard);;
    addEventListener (OnElement dropdown) "mouseenter"
      (DropdownMouseEnter dropdown);;
    addEventListener (OnElement dropdown) "mouseleave"
      (DropdownMouseLeave dropdown));;
  m ← nonNull (navMenu env);
  links ← querySelectorAllIn m (TagWithoutAttr "a" "aria-haspopup");
  forEach links (λ link,
    addEventListener (OnElement link) "click" NavLinkClick);;
  addEventListener OnDocument "click" ClickOutside;;
  addEventListener OnWindow "resize" Resize;;
  addEventListener OnDocument "keydown" EscapeKey.

(** What a registered listener runs when an event is delivered to it. *)
Definition run (h : Handler) (event : Event) : Script unit :=
  match h with
  | ToggleMobileMenu => toggleMobileMenu
  | DropdownClick dropdown => toggleDropdown dropdown event
  | DropdownKeyboard => handleDropdownKeyboard event
  | DropdownMouseEnter dropdown => dropdownMouseEnter dropdown
  | DropdownMouseLeave dropdown => dropdownMouseLeave dropdown
  | NavLinkClick => navLinkClick
  | ClickOutside => handleClickOutside event
  | Resize => handleResize
  | EscapeKey => handleEscapeKey event
  end.

End Functions.

(** *** The page as it runs *)

(** The page before the script is loaded: no listener, no pending
    callback of this script; [canFocus] is what the browser lets take
    focus on this page. *)
Definition fresh_page (doc : Document) (bodyEl : option nat) (width : Z)
    (counter : nat) (canFocus : nat → bool) : State :=
  mkState doc bodyEl width false None counter [] None false [] [] canFocus.

(** Lines 230-235 on a parsed document: the module is loaded, then [init]
    runs; a TypeError in [init] leaves the listeners added before it. *)
Definition boot (s : State) : option (Env * State) :=
  match load s with
  | (Normal env, s') => Some (env, exec (init env) s')
  | (TypeError, _) => None
  end.

(** An event reaches a listener on an element when its target is that
    element or lies inside it. *)
Definition delivered (doc : Document) (tgt : EventTarget) (event : Event)
  : Prop :=
  match tgt with
  | OnElement i => contains doc i (target event)
  | OnDocument | OnWindow => True
  end.

(** Running the animation-frame callback with handle [h]. *)
Definition runFrame (env : Env) (h : nat) : Script unit :=
  modify (λ s, set_frames (frameCounter s)
                 (filter (λ h', h' ≠ h) (pendingFrames s)) s);;
  resizeCallback env.

Inductive step (env : Env) : State → State → Prop :=
  | step_listener l event s :
      l ∈ listeners s →
      delivered (dom s) (listensOn l) event →
      step env s (exec (run env (handler l) event) s)
  | step_frame h s :
      h ∈ pendingFrames s →
      step env s (exec (runFrame env h) s)
  | step_viewport width s :
      step env s (set_innerWidth width s).

Inductive reachable (s0 : State) (env : Env) : State → Prop :=
  | reachable_boot s : boot s0 = Some (env, s) → reachable s0 env s
  | reachable_step s s' :
      reachable s0 env s → step env s s' → reachable s0 env s'.

End Navbar.

Import Navbar.

(** ** Markup, as opposed to the state the script writes *)

(** The script writes three classes and one attribute; everything else
    in the document is markup it only reads. *)
Definition state_classes : gset string :=
  {[ "is-open"; "is-active"; "menu-open" ]}.

Definition markup (e : Element) : Element :=
  mkElement (tagName e) (parentNode e) (classList e ∖ state_classes)
    (delete "aria-expanded" (attributes e)).

Definition skeleton (doc : Document) : Document := markup <$> doc.

(** A selector that reads markup only. *)
Definition static (sel : Selector) : Prop :=
  match sel with
  | ByClass c => c ∉ state_classes
  | TagWithAttr _ a | TagWithoutAttr _ a => a ≠ "aria-expanded"
  end.

(** ** Vocabulary of the properties *)

(** The constants [load] binds, read off a state. *)
Definition snapshot (s : State) : Env :=
  mkEnv (select (dom s) (ByClass "menu-toggle"))
        (select (dom s) (ByClass "nav-menu"))
        (select_all (dom s) (ByClass "nav-dropdown"))
        (documentBody s).

Definition attached (doc : Document) (r : option nat) : Prop :=
  match r with
  | Some i => i < length doc
  | None => True
  end.

(** The module's constants are the ones the document of [s] yields, and
    [document.body], when there is one, is an element of it. *)
Definition cached (env : Env) (s : State) : Prop :=
  env = snapshot s ∧ attached (dom s) (documentBody s).

Definition is_dropdown (doc : Document) (d : nat) : Prop :=
  matches_at doc (ByClass "nav-dropdown") d.

(** [dropdown.querySelector('a[aria-haspopup]')]. *)
Definition dropdown_toggle (doc : Document) (d : nat) : option nat :=
  select_in doc d dropdownToggleSelector.

(** [i] is the toggle link of one of the dropdowns [ds]. *)
Definition toggle_of (doc : Document) (ds : list nat) (i : nat) : Prop :=
  Exists (λ d, select_in doc d dropdownToggleSelector = Some i) ds.

(** A dropdown without [is-open] whose toggle link, if it has one, has
    [aria-expanded="false"]. *)
Definition dropdown_closed (doc : Document) (d : nat) : Prop :=
  has_class doc d "is-open" = false ∧
  ∀ tg, dropdown_toggle doc d = Some tg →
        attribute doc tg "aria-expanded" = Some "false".

Definition at_most_one_open (doc : Document) : Prop :=
  ∀ d1 d2, is_dropdown doc d1 → is_dropdown doc d2 →
           has_class doc d1 "is-open" = true →
           has_class doc d2 "is-open" = true → d1 = d2.

(** The three encodings of "the menu is open", for a toggle [t], a menu
    [m] and a body [b]. *)
Definition expanded (doc : Document) (t : nat) : bool :=
  bool_decide (attribute doc t "aria-expanded" = Some "true").

Definition menu_state (doc : Document) (t m b : nat)
  : option string * bool * bool :=
  (attribute doc t "aria-expanded", has_class doc m "is-active",
   has_class doc b "menu-open").

Definition synchronized (doc : Document) (t m b : nat) : Prop :=
  expanded doc t = has_class doc m "is-active" ∧
  has_class doc m "is-active" = has_class doc b "menu-open".

Definition menu_closed (doc : Document) (t m b : nat) : Prop :=
  attribute doc t "aria-expanded" = Some "false" ∧
  has_class doc m "is-active" = false ∧
  has_class doc b "menu-open" = false.

(** The same state, the log of queries aside. *)
Definition same_but_log (s s' : State) : Prop :=
  set_queryLog [] s' = set_queryLog [] s.

(** The selectors of the interface contract, and the selectors the
    script passes to the DOM. *)
Definition contract_selectors : list string :=
  [".menu-toggle"; ".nav-menu"; ".nav-dropdown"; "a[aria-haspopup]"].

Definition used_selectors : list string :=
  contract_selectors ++ ["a:not([aria-haspopup])"].

Definition log_within (sels : list string) (s : State) : Prop :=
  Forall (λ q, q.2 ∈ sels) (queryLog s).

(** ** The effect of the script on the document, as functions *)

(** Closing one dropdown (lines 60-64, 85-89, 157-160 and 202-206 have
    this shape), and several. *)
Definition close_dropdown (d : nat) (doc : Document) : Document :=
  let doc' := remove_class d "is-open" doc in
  match select_in doc' d dropdownToggleSelector with
  | Some t => set_attribute t "aria-expanded" "false" doc'
  | None => doc'
  end.

Definition close_dropdowns (ds : list nat) (doc : Document) : Document :=
  foldl (λ doc d, close_dropdown d doc) doc ds.

(** Opening one dropdown on hover (lines 192-196). *)
Definition open_dropdown (d : nat) (doc : Document) : Document :=
  let doc' := add_class d "is-open" doc in
  match select_in doc' d dropdownToggleSelector with
  | Some t => set_attribute t "aria-expanded" "true" doc'
  | None => doc'
  end.

(** A tap on the toggle of dropdown [d] (lines 80-95); the last write is
    missing when [d] has no toggle link. *)
Definition tap_dropdown (ds : list nat) (d : nat) (doc : Document)
  : Document :=
  let isOpen := has_class doc d "is-open" in
  let doc' := toggle_class d "is-open"
                (close_dropdowns (filter (λ d', d' ≠ d) ds) doc) in
  match select_in doc d dropdownToggleSelector with
  | Some t =>
      set_attribute t "aria-expanded" (string_of_bool (negb isOpen)) doc'
  | None => doc'
  end.

(** What [closeMobileMenu] and [toggleMobileMenu] do before they turn to
    the dropdowns. *)
Definition menu_closed_doc (t m b : nat) (doc : Document) : Document :=
  remove_class b "menu-open"
    (remove_class m "is-active"
       (set_attribute t "aria-expanded" "false" doc)).

Definition menu_toggled_doc (t m b : nat) (isOpen : bool) (doc : Document)
  : Document :=
  toggle_class b "menu-open"
    (toggle_class m "is-active"
       (set_attribute t "aria-expanded" (string_of_bool (negb isOpen)) doc)).

(** A state that differs from [s] in the document and in the queries
    logged since. *)
Definition updated (doc : Document) (log : list (QueryMethod * string))
    (s : State) : State :=
  set_queryLog (queryLog s ++ log) (set_dom doc s).

Definition toggleQuery : QueryMethod * string :=
  (QuerySelector, "a[aria-haspopup]").

Definition toggleQueries (env : Env) : list (QueryMethod * string) :=
  replicate (length (navDropdowns env)) toggleQuery.

(** The shapes the effect of a listener or of the frame callback on the
    document can take, on a page whose toggle [t], menu [m] and body [b]
    are present. *)
Inductive effect (env : Env) (t m b : nat) (doc : Document)
  : Document → Prop :=
  | effect_none : effect env t m b doc doc
  | effect_close_menu :
      effect env t m b doc
        (close_dropdowns (navDropdowns env) (menu_closed_doc t m b doc))
  | effect_open_menu :
      expanded doc t = false →
      effect env t m b doc (menu_toggled_doc t m b false doc)
  | effect_shut_menu :
      expanded doc t = true →
      effect env t m b doc
        (close_dropdowns (navDropdowns env) (menu_toggled_doc t m b true doc))
  | effect_tap d :
      d ∈ navDropdowns env →
      effect env t m b doc (tap_dropdown (navDropdowns env) d doc)
  | effect_open d :
      d ∈ navDropdowns env → effect env t m b doc (open_dropdown d doc)
  | effect_close d :
      d ∈ navDropdowns env → effect env t m b doc (close_dropdown d doc).

(** ** Invariants of programs and of the page *)

(** [m] keeps [I]: whether it ends normally or with a TypeError, the
    state it ends in satisfies [I] when the state it starts in does. *)
Definition preserves {A} (I : State → Prop) (m : Script A) : Prop :=
  ∀ s, I s → I (exec m s).

(** What no function of the script changes: the markup, which element
    is the body, and the width of the viewport. *)
Definition fixture (s : State) : Document * option nat * Z :=
  (skeleton (dom s), documentBody s, innerWidth s).

(** The bookkeeping of animation frames. *)
Definition schedule (s : State) : option nat * nat * list nat :=
  (resizeTimeout s, frameCounter s, pendingFrames s).

(** What an event listener or the frame callback finds and leaves in
    place: the fixture, the registered listeners and (except for
    [handleResize]) the schedule. *)
Definition backdrop (s : State)
  : (Document * option nat * Z) * list Listener * (option nat * nat * list nat) :=
  (fixture s, listeners s, schedule s).

(** A dropdown listener is about one of the cached dropdowns. *)
Definition listener_ok (env : Env) (l : Listener) : Prop :=
  match handler l with
  | DropdownClick d | DropdownMouseEnter d | DropdownMouseLeave d =>
      d ∈ navDropdowns env
  | _ => True
  end.

(** At most one callback is pending, and it is the one [resizeTimeout]
    remembers. *)
Definition debounced (s : State) : Prop :=
  Forall (λ h : nat, (h ≤ frameCounter s)%nat) (pendingFrames s) ∧
  (pendingFrames s = [] ∨
   ∃ h, pendingFrames s = [S h] ∧ resizeTimeout s = Some (S h)).

(** What holds of every state the page can be in. *)
Definition invariant (env : Env) (s : State) : Prop :=
  Forall (listener_ok env) (listeners s) ∧
  debounced s ∧
  log_within used_selectors s.

(** What [init] leaves in place, and what it builds up. *)
Definition wiring (env : Env) x (s : State) : Prop :=
  (fixture s, schedule s) = x ∧
  log_within used_selectors s ∧
  Forall (listener_ok env) (listeners s).

(** ** Sample pages *)

(** What a browser that renders every element of a page lets take
    focus: a button that is not disabled, a link with [href], an element
    with [tabindex]. The sample pages are taken to be rendered so. *)
Definition focusable_by_markup (doc : Document) (i : nat) : bool :=
  match doc !! i with
  | Some e =>
      bool_decide (tagName e = "button" ∧ attributes e !! "disabled" = None)
      || bool_decide (tagName e = "a" ∧ is_Some (attributes e !! "href"))
      || bool_decide (is_Some (attributes e !! "tabindex"))
  | None => false
  end.

(** A body holding the menu button and the menu; the menu has two
    dropdowns, each with its toggle link, and one plain link. *)
Definition demo_doc : Document :=
  [ mkElement "body" None ∅ ∅;
    mkElement "button" (Some 0) {[ "menu-toggle" ]}
      {[ "aria-expanded" := "false" ]};
    mkElement "ul" (Some 0) {[ "nav-menu" ]} ∅;
    mkElement "li" (Some 2) {[ "nav-dropdown" ]} ∅;
    mkElement "a" (Some 3) ∅
      {[ "aria-haspopup" := "true"; "aria-expanded" := "false" ]};
    mkElement "li" (Some 2) {[ "nav-dropdown" ]} ∅;
    mkElement "a" (Some 5) ∅
      {[ "aria-haspopup" := "true"; "aria-expanded" := "false" ]};
    mkElement "li" (Some 2) ∅ ∅;
    mkElement "a" (Some 7) ∅ {[ "href" := "/contact" ]} ].

Definition demo_env : Env := mkEnv (Some 1) (Some 2) [3; 5] (Some 0).

(** The page once the script has been loaded and [init] has run, in a
    viewport of the given width. *)
Definition demo_state (width : Z) : State :=
  exec (init demo_env)
    (exec load
       (fresh_page demo_doc (Some 0) width 0 (focusable_by_markup demo_doc))).

(** The same with the menu open, and after a tap on the first dropdown. *)
Definition demo_open (width : Z) : State :=
  exec (toggleMobileMenu demo_env) (demo_state width).

Definition demo_tapped : State :=
  exec (toggleDropdown demo_env 3 (mkEvent 4 "")) (demo_state 800).

(** The page with markup that disagrees with itself: the button says
    expanded, the menu is not active. *)
Definition stale_expanded_state : State :=
  let doc := set_attribute 1 "aria-expanded" "true" demo_doc in
  exec (init demo_env)
    (exec load (fresh_page doc (Some 0) 800 0 (focusable_by_markup doc))).

(** The other way round: the menu is active, the button says collapsed. *)
Definition stale_active_state : State :=
  let doc := add_class 2 "is-active" demo_doc in
  exec (init demo_env)
    (exec load (fresh_page doc (Some 0) 800 0 (focusable_by_markup doc))).

(** A page whose menu toggle is the [a[aria-haspopup]] link of a
    dropdown. *)
Definition shared_toggle_doc : Document :=
  [ mkElement "body" None ∅ ∅;
    mkElement "ul" (Some 0) {[ "nav-menu" ]} ∅;
    mkElement "li" (Some 1) {[ "nav-dropdown" ]} ∅;
    mkElement "a" (Some 2) {[ "menu-toggle" ]}
      {[ "aria-haspopup" := "true"; "aria-expanded" := "false" ]} ].

Definition shared_toggle_env : Env := mkEnv (Some 3) (Some 1) [2] (Some 0).

Definition shared_toggle_state (width : Z) : State :=
  exec (init shared_toggle_env)
    (exec load
       (fresh_page shared_toggle_doc (Some 0) width 0
          (focusable_by_markup shared_toggle_doc))).

(** That page with the menu open, on desktop, and the same after the
    pointer has left the dropdown. *)
Definition shared_toggle_open : State :=
  exec (toggleMobileMenu shared_toggle_env) (shared_toggle_state 1280).

Definition shared_toggle_left : State :=
  exec (dropdownMouseLeave 2) shared_toggle_open.

(** A page with the menu button but no menu, and one with the menu but
    no button. *)
Definition no_menu_doc : Document :=
  [ mkElement "body" None ∅ ∅;
    mkElement "button" (Some 0) {[ "menu-toggle" ]}
      {[ "aria-expanded" := "false" ]} ].

Definition no_toggle_doc : Document :=
  [ mkElement "body" None ∅ ∅;
    mkElement "ul" (Some 0) {[ "nav-menu" ]} ∅;
    mkElement "li" (Some 1) ∅ ∅;
    mkElement "a" (Some 2) ∅ {[ "href" := "/" ]} ].

Definition no_menu_env : Env := mkEnv (Some 1) None [] (Some 0).
Definition no_toggle_env : Env := mkEnv None (Some 1) [] (Some 0).

Definition no_menu_loaded : State :=
  exec load
    (fresh_page no_menu_doc (Some 0) 800 0 (focusable_by_markup no_menu_doc)).

Definition no_toggle_state : State :=
  exec (init no_toggle_env)
    (exec load
       (fresh_page no_toggle_doc (Some 0) 800 0
          (focusable_by_markup no_toggle_doc))).

(** The sample page whose dropdown toggles are links with [href], so
    that they can take focus, after a tap on the first dropdown. *)
Definition linked_doc : Document :=
  set_attribute 4 "href" "/services"
    (set_attribute 6 "href" "/areas" demo_doc).

Definition linked_tapped : State :=
  exec (toggleDropdown demo_env 3 (mkEvent 4 ""))
    (exec (init demo_env)
       (exec load
          (fresh_page linked_doc (Some 0) 800 0
             (focusable_by_markup linked_doc)))).

(** ** Vocabulary of the further properties *)

(** The listeners [init] adds for one dropdown (lines 177-208), and for
    a page whose menu is [m]. *)
Definition dropdown_listeners (doc : Document) (d : nat) : list Listener :=
  match select_in doc d dropdownToggleSelector with
  | Some t => [mkListener (OnElement t) "click" (DropdownClick d);
               mkListener (OnElement t) "keydown" DropdownKeyboard]
  | None => []
  end ++
  [mkListener (OnElement d) "mouseenter" (DropdownMouseEnter d);
   mkListener (OnElement d) "mouseleave" (DropdownMouseLeave d)].

Definition plainLinkSelector : Selector := TagWithoutAttr "a" "aria-haspopup".

Definition wired_listeners (env : Env) (doc : Document) (m : nat)
  : list Listener :=
  match menuToggle env with
  | Some t => [mkListener (OnElement t) "click" ToggleMobileMenu]
  | None => []
  end ++
  (navDropdowns env ≫= dropdown_listeners doc) ++
  ((λ link, mkListener (OnElement link) "click" NavLinkClick)
     <$> select_all_in doc m plainLinkSelector) ++
  [mkListener OnDocument "click" ClickOutside;
   mkListener OnWindow "resize" Resize;
   mkListener OnDocument "keydown" EscapeKey].

(** A state that differs from [s] in the listeners added and the queries
    logged since. *)
Definition registered (ls : list Listener) (log : list (QueryMethod * string))
    (s : State) : State :=
  set_listeners (listeners s ++ ls) (set_queryLog (queryLog s ++ log) s).

(** The fields of the state besides the document. *)
Definition flags (s : State) : bool * Z * bool * option nat :=
  (isDesktop s, innerWidth s, defaultPrevented s, activeElement s).

(** A resize event: the viewport takes a new width and the resize
    listener runs; and a burst of them. *)
Definition resize_to (w : Z) (s : State) : State :=
  exec handleResize (set_innerWidth w s).

Definition resize_burst (ws : list Z) (s : State) : State :=
  foldl (λ s w, resize_to w s) s ws.

Definition resizeListener : Listener := mkListener OnWindow "resize" Resize.

(** ** Lemmas on the document *)

Section DomLemmas.

Implicit Types (doc : Document) (e : Element) (i j : nat) (c a v : string).

Ltac bool_eq :=
  apply Bool.eq_iff_eq_true;
  rewrite ?orb_true_iff, ?andb_true_iff, ?negb_true_iff,
    ?bool_decide_eq_true, ?bool_decide_eq_false.

Lemma has_class_alter_classes f i doc j c :
  has_class (alter (with_classes f) i doc) j c =
  match doc !! j with
  | Some e => bool_decide (c ∈ (if decide (i = j) then f (classList e)
                                else classList e))
  | None => false
  end.
Proof.
  unfold has_class. rewrite list_lookup_alter.
  destruct (decide (i = j)) as [->|]; [|done].
  by destruct (doc !! j).
Qed.

Lemma has_class_add i c doc j c' :
  has_class (add_class i c doc) j c' =
  has_class doc j c' || bool_decide (i = j ∧ c = c' ∧ j < length doc).
Proof.
  unfold add_class. rewrite has_class_alter_classes. unfold has_class.
  destruct (doc !! j) as [e|] eqn:E.
  - apply lookup_lt_Some in E as Hlt.
    destruct (decide (i = j)) as [->|]; bool_eq; set_solver.
  - symmetry. apply bool_decide_eq_false. apply lookup_ge_None in E. lia.
Qed.

Lemma has_class_remove i c doc j c' :
  has_class (remove_class i c doc) j c' =
  has_class doc j c' && negb (bool_decide (i = j ∧ c = c')).
Proof.
  unfold remove_class. rewrite has_class_alter_classes. unfold has_class.
  destruct (doc !! j) as [e|] eqn:E; [|done].
  destruct (decide (i = j)) as [->|]; bool_eq; set_solver.
Qed.

Lemma has_class_lt doc i c : has_class doc i c = true → i < length doc.
Proof.
  unfold has_class. destruct (doc !! i) eqn:E; [|done].
  intros _. by eapply lookup_lt_Some.
Qed.

Lemma has_class_toggle i c doc j c' :
  has_class (toggle_class i c doc) j c' =
  if bool_decide (i = j ∧ c = c' ∧ j < length doc)
  then negb (has_class doc j c') else has_class doc j c'.
Proof.
  unfold toggle_class. destruct (has_class doc i c) eqn:E.
  - rewrite has_class_remove. apply has_class_lt in E as Hlt.
    destruct (decide (i = j ∧ c = c')) as [[-> ->]|Hne].
    + rewrite !bool_decide_eq_true_2 by done. by rewrite E.
    + rewrite !bool_decide_eq_false_2 by naive_solver. apply andb_true_r.
  - rewrite has_class_add.
    destruct (decide (i = j ∧ c = c' ∧ j < length doc)) as [(-> & -> & ?)|Hne].
    + rewrite !bool_decide_eq_true_2 by done. by rewrite E.
    + rewrite !bool_decide_eq_false_2 by done. apply orb_false_r.
Qed.

Lemma has_class_set_attribute i a v doc j c :
  has_class (set_attribute i a v doc) j c = has_class doc j c.
Proof.
  unfold set_attribute, has_class. rewrite list_lookup_alter.
  destruct (decide (i = j)) as [->|]; [|done]. by destruct (doc !! j).
Qed.

Lemma attribute_alter_classes f i doc j a :
  attribute (alter (with_classes f) i doc) j a = attribute doc j a.
Proof.
  unfold attribute. rewrite list_lookup_alter.
  destruct (decide (i = j)) as [->|]; [|done]. by destruct (doc !! j).
Qed.

Lemma attribute_set_attribute i a v doc j a' :
  attribute (set_attribute i a v doc) j a' =
  if bool_decide (i = j ∧ a = a' ∧ j < length doc)
  then Some v else attribute doc j a'.
Proof.
  unfold set_attribute, attribute. rewrite list_lookup_alter.
  destruct (decide (i = j)) as [->|].
  - destruct (doc !! j) as [e|] eqn:E; simpl.
    + apply lookup_lt_Some in E as Hlt.
      destruct (decide (a = a')) as [->|].
      * rewrite bool_decide_eq_true_2 by done. apply lookup_insert_eq.
      * rewrite bool_decide_eq_false_2 by naive_solver.
        by apply lookup_insert_ne.
    + apply lookup_ge_None in E.
      rewrite bool_decide_eq_false_2; [done|lia].
  - rewrite bool_decide_eq_false_2; naive_solver.
Qed.

Lemma attribute_add_class i c doc j a :
  attribute (add_class i c doc) j a = attribute doc j a.
Proof. apply attribute_alter_classes. Qed.

Lemma attribute_remove_class i c doc j a :
  attribute (remove_class i c doc) j a = attribute doc j a.
Proof. apply attribute_alter_classes. Qed.

Lemma attribute_toggle_class i c doc j a :
  attribute (toggle_class i c doc) j a = attribute doc j a.
Proof.
  unfold toggle_class.
  destruct (has_class doc i c); apply attribute_alter_classes.
Qed.

Lemma length_add_class i c doc : length (add_class i c doc) = length doc.
Proof. apply length_alter. Qed.

Lemma length_remove_class i c doc : length (remove_class i c doc) = length doc.
Proof. apply length_alter. Qed.

Lemma length_toggle_class i c doc : length (toggle_class i c doc) = length doc.
Proof. unfold toggle_class. destruct (has_class doc i c); apply length_alter. Qed.

Lemma length_set_attribute i a v doc :
  length (set_attribute i a v doc) = length doc.
Proof. apply length_alter. Qed.

(** Writing state leaves the markup alone. *)

Lemma markup_with_classes f e :
  (∀ cs, f cs ∖ state_classes = cs ∖ state_classes) →
  markup (with_classes f e) = markup e.
Proof. intros H. unfold markup, with_classes. simpl. by rewrite H. Qed.

Lemma markup_with_attribute v e :
  markup (with_attribute "aria-expanded" v e) = markup e.
Proof.
  unfold markup, with_attribute. simpl. by rewrite delete_insert_eq.
Qed.

Lemma skeleton_alter f i doc :
  (∀ e, markup (f e) = markup e) →
  skeleton (alter f i doc) = skeleton doc.
Proof.
  intros H. unfold skeleton. apply list_eq. intros j.
  rewrite !list_lookup_fmap, list_lookup_alter.
  destruct (decide (i = j)) as [->|]; [|done].
  destruct (doc !! j); simpl; [|done]. by rewrite H.
Qed.

Lemma skeleton_add_class i c doc :
  c ∈ state_classes → skeleton (add_class i c doc) = skeleton doc.
Proof.
  intros Hc. apply skeleton_alter. intros e.
  apply markup_with_classes. set_solver.
Qed.

Lemma skeleton_remove_class i c doc :
  c ∈ state_classes → skeleton (remove_class i c doc) = skeleton doc.
Proof.
  intros Hc. apply skeleton_alter. intros e.
  apply markup_with_classes. set_solver.
Qed.

Lemma skeleton_toggle_class i c doc :
  c ∈ state_classes → skeleton (toggle_class i c doc) = skeleton doc.
Proof.
  intros Hc. unfold toggle_class.
  destruct (has_class doc i c);
    auto using skeleton_add_class, skeleton_remove_class.
Qed.

Lemma skeleton_set_attribute i v doc :
  skeleton (set_attribute i "aria-expanded" v doc) = skeleton doc.
Proof. apply skeleton_alter, markup_with_attribute. Qed.

Lemma skeleton_length doc : length (skeleton doc) = length doc.
Proof. apply length_fmap. Qed.

Lemma skeleton_eq_length doc doc' :
  skeleton doc = skeleton doc' → length doc = length doc'.
Proof.
  intros H. by rewrite <- (skeleton_length doc), H, skeleton_length.
Qed.

(** Static selectors, ancestors and containment read the markup only. *)

Lemma matches_markup sel e : static sel → matches sel (markup e) ↔ matches sel e.
Proof.
  destruct sel; simpl; intros Hs.
  - set_solver.
  - by rewrite lookup_delete_ne.
  - by rewrite lookup_delete_ne.
Qed.

Lemma matches_at_skeleton doc sel i :
  static sel → matches_at (skeleton doc) sel i ↔ matches_at doc sel i.
Proof.
  intros Hs. unfold matches_at, skeleton. rewrite list_lookup_fmap.
  destruct (doc !! i) as [e|]; simpl.
  - split.
    + intros (e' & [= <-] & H). exists e. by rewrite <- matches_markup.
    + intros (e' & [= <-] & H). exists (markup e). by rewrite matches_markup.
  - split; intros (e' & [=] & _).
Qed.

Lemma ancestors_from_skeleton n doc i :
  ancestors_from n (skeleton doc) i = ancestors_from n doc i.
Proof.
  revert i. induction n as [|n IH]; intros i; simpl; [done|].
  unfold skeleton at 1. rewrite list_lookup_fmap.
  destruct (doc !! i) as [e|]; simpl; [|done].
  destruct (parentNode e); [|done]. by rewrite IH.
Qed.

Lemma inclusive_ancestors_skeleton doc i :
  inclusive_ancestors (skeleton doc) i = inclusive_ancestors doc i.
Proof.
  unfold inclusive_ancestors.
  by rewrite skeleton_length, ancestors_from_skeleton.
Qed.

Lemma contains_skeleton doc i j :
  contains (skeleton doc) i j ↔ contains doc i j.
Proof. unfold contains. by rewrite inclusive_ancestors_skeleton. Qed.

Lemma select_all_skeleton doc sel :
  static sel → select_all (skeleton doc) sel = select_all doc sel.
Proof.
  intros Hs. unfold select_all. rewrite skeleton_length.
  apply list_filter_iff. intros i. by apply matches_at_skeleton.
Qed.

Lemma select_all_in_skeleton doc root sel :
  static sel →
  select_all_in (skeleton doc) root sel = select_all_in doc root sel.
Proof.
  intros Hs. unfold select_all_in. rewrite select_all_skeleton by done.
  apply list_filter_iff. intros i. unfold descendant.
  by rewrite contains_skeleton.
Qed.

Lemma closest_skeleton doc start sel :
  static sel → closest (skeleton doc) start sel = closest doc start sel.
Proof.
  intros Hs. unfold closest. rewrite inclusive_ancestors_skeleton.
  f_equal. apply list_filter_iff. intros i. by apply matches_at_skeleton.
Qed.

Section SameMarkup.

Context (doc doc' : Document) (Hsk : skeleton doc = skeleton doc').

Lemma select_all_same sel :
  static sel → select_all doc sel = select_all doc' sel.
Proof.
  intros Hs. by rewrite <- (select_all_skeleton doc),
    <- (select_all_skeleton doc'), Hsk.
Qed.

Lemma select_same sel : static sel → select doc sel = select doc' sel.
Proof. intros Hs. unfold select. by rewrite select_all_same. Qed.

Lemma select_all_in_same root sel :
  static sel → select_all_in doc root sel = select_all_in doc' root sel.
Proof.
  intros Hs. by rewrite <- (select_all_in_skeleton doc),
    <- (select_all_in_skeleton doc'), Hsk.
Qed.

Lemma select_in_same root sel :
  static sel → select_in doc root sel = select_in doc' root sel.
Proof. intros Hs. unfold select_in. by rewrite select_all_in_same. Qed.

Lemma closest_same start sel :
  static sel → closest doc start sel = closest doc' start sel.
Proof.
  intros Hs. by rewrite <- (closest_skeleton doc),
    <- (closest_skeleton doc'), Hsk.
Qed.

Lemma contains_same i j : contains doc i j ↔ contains doc' i j.
Proof.
  by rewrite <- (contains_skeleton doc), <- (contains_skeleton doc'), Hsk.
Qed.

End SameMarkup.

(** Every reference a query returns is an element of the document. *)

Lemma select_all_lt doc sel i : i ∈ select_all doc sel → i < length doc.
Proof.
  unfold select_all. rewrite list_elem_of_filter, elem_of_seq. lia.
Qed.

Lemma select_all_matches doc sel i :
  i ∈ select_all doc sel ↔ matches_at doc sel i.
Proof.
  unfold select_all. rewrite list_elem_of_filter, elem_of_seq.
  split; [tauto|]. intros H. split; [done|].
  destruct H as (e & He & _). apply lookup_lt_Some in He. lia.
Qed.

Lemma select_in_elem doc root sel i :
  select_in doc root sel = Some i →
  i ∈ select_all doc sel ∧ descendant doc root i.
Proof.
  unfold select_in, select_all_in. intros H.
  apply head_Some_elem_of in H. apply list_elem_of_filter in H. tauto.
Qed.

Lemma select_in_lt doc root sel i :
  select_in doc root sel = Some i → i < length doc.
Proof. intros H. apply select_in_elem in H as [H _]. by eapply select_all_lt. Qed.

(** The effect of closing one dropdown, and several. *)

Lemma static_dropdownToggleSelector : static dropdownToggleSelector.
Proof. done. Qed.

Lemma is_open_state_class : "is-open" ∈ state_classes.
Proof. set_solver. Qed.

Lemma skeleton_close_dropdown d doc :
  skeleton (close_dropdown d doc) = skeleton doc.
Proof.
  unfold close_dropdown.
  destruct (select_in _ _ _); rewrite ?skeleton_set_attribute;
    apply skeleton_remove_class, is_open_state_class.
Qed.

Lemma select_in_remove_class i c doc root sel :
  c ∈ state_classes → static sel →
  select_in (remove_class i c doc) root sel = select_in doc root sel.
Proof.
  intros Hc Hs. apply select_in_same; [|done].
  by apply skeleton_remove_class.
Qed.

Lemma has_class_close_dropdown d doc i c :
  has_class (close_dropdown d doc) i c =
  has_class doc i c && negb (bool_decide (d = i ∧ "is-open" = c)).
Proof.
  unfold close_dropdown.
  destruct (select_in _ _ _); rewrite ?has_class_set_attribute;
    apply has_class_remove.
Qed.

Lemma attribute_close_dropdown d doc i a :
  attribute (close_dropdown d doc) i a =
  if bool_decide (select_in doc d dropdownToggleSelector = Some i
                  ∧ "aria-expanded" = a)
  then Some "false" else attribute doc i a.
Proof.
  unfold close_dropdown.
  rewrite select_in_remove_class
    by auto using is_open_state_class, static_dropdownToggleSelector.
  destruct (select_in doc d dropdownToggleSelector) as [t|] eqn:E.
  - rewrite attribute_set_attribute. unfold remove_class.
    rewrite length_alter, attribute_alter_classes.
    apply select_in_lt in E.
    destruct (decide (t = i ∧ "aria-expanded" = a)) as [[-> ->]|].
    + by rewrite !bool_decide_eq_true_2.
    + rewrite !bool_decide_eq_false_2; naive_solver.
  - unfold remove_class. rewrite attribute_alter_classes.
    rewrite bool_decide_eq_false_2; naive_solver.
Qed.

Lemma skeleton_close_dropdowns ds doc :
  skeleton (close_dropdowns ds doc) = skeleton doc.
Proof.
  revert doc. induction ds as [|d ds IH]; intros doc; simpl; [done|].
  unfold close_dropdowns in *. simpl. by rewrite IH, skeleton_close_dropdown.
Qed.

Lemma has_class_close_dropdowns ds doc i c :
  has_class (close_dropdowns ds doc) i c =
  has_class doc i c && negb (bool_decide (i ∈ ds ∧ "is-open" = c)).
Proof.
  revert doc. induction ds as [|d ds IH]; intros doc.
  - change (close_dropdowns [] doc) with doc.
    rewrite bool_decide_eq_false_2 by set_solver. by rewrite andb_true_r.
  - unfold close_dropdowns in *. simpl. rewrite IH, has_class_close_dropdown.
    rewrite <- andb_assoc. f_equal.
    destruct (decide (d = i ∧ "is-open" = c)) as [[-> ->]|].
    + rewrite (bool_decide_eq_true_2 (i = i ∧ _)) by done.
      simpl. symmetry. apply negb_false_iff, bool_decide_eq_true_2. set_solver.
    + rewrite (bool_decide_eq_false_2 (d = i ∧ _)) by done. simpl.
      f_equal. apply bool_decide_ext. set_solver.
Qed.

Lemma attribute_close_dropdowns ds doc i a :
  attribute (close_dropdowns ds doc) i a =
  if bool_decide (toggle_of doc ds i ∧ "aria-expanded" = a)
  then Some "false" else attribute doc i a.
Proof.
  unfold toggle_of. revert doc. induction ds as [|d ds IH]; intros doc.
  - change (close_dropdowns [] doc) with doc.
    rewrite bool_decide_eq_false_2; [done|].
    intros [H _]. by apply Exists_nil in H.
  - unfold close_dropdowns in *. simpl. rewrite IH, attribute_close_dropdown.
    assert (Hsame : ∀ d', select_in (close_dropdown d doc) d'
                            dropdownToggleSelector
                          = select_in doc d' dropdownToggleSelector).
    { intros d'. apply select_in_same;
        auto using skeleton_close_dropdown, static_dropdownToggleSelector. }
    destruct (decide (Exists (λ d', select_in doc d' dropdownToggleSelector
                                    = Some i) ds ∧ "aria-expanded" = a))
      as [[Hex <-]|Hno].
    + rewrite !bool_decide_eq_true_2; [done| |].
      * split; [|done]. by apply Exists_cons_tl.
      * split; [|done]. eapply Exists_impl; [done|].
        intros d' Hd'. simpl in *. by rewrite Hsame.
    + rewrite (bool_decide_eq_false_2 (Exists _ ds ∧ _)).
      * destruct (decide (select_in doc d dropdownToggleSelector = Some i
                          ∧ "aria-expanded" = a)) as [H1|H1].
        -- rewrite !bool_decide_eq_true_2; [done| |done].
           split; [|tauto]. apply Exists_cons_hd. tauto.
        -- rewrite !bool_decide_eq_false_2; [done| |done].
           rewrite Exists_cons. naive_solver.
      * intros [Hex <-]. apply Hno. split; [|done].
        eapply Exists_impl; [done|]. intros d' Hd'. simpl in *.
        by rewrite <- Hsame.
Qed.

End DomLemmas.

(** ** Running the script *)

Ltac run_script :=
  cbv beta iota delta [mbind script_bind mret script_ret gets modify when
    whenPresent nonNull throw logQuery querySelector querySelectorAll
    querySelectorIn querySelectorAllIn closestTo containsNode getAttribute
    setAttribute classList_contains classList_add classList_remove
    classList_toggle focus preventDefault addEventListener exec fst snd].

Lemma forEach_run {A} (f : A → Script unit) (g : A → State → State) l s :
  (∀ x s', f x s' = (Normal (), g x s')) →
  forEach l f s = (Normal (), foldl (λ s' x, g x s') s l).
Proof.
  intros Hf. revert s. induction l as [|x l IH]; intros s; [done|].
  cbn [forEach foldl]. unfold mbind, script_bind. by rewrite Hf, IH.
Qed.

Lemma updated_updated doc log doc' log' s :
  updated doc' log' (updated doc log s) = updated doc' (log ++ log') s.
Proof. unfold updated. simpl. by rewrite app_assoc. Qed.

Lemma updated_id s : updated (dom s) [] s = s.
Proof. destruct s. unfold updated. simpl. by rewrite app_nil_r. Qed.

Lemma close_loop_fold (P : nat → Prop) `{!∀ d, Decision (P d)} ds s :
  foldl (λ s' d, if bool_decide (P d)
                 then updated (close_dropdown d (dom s')) [toggleQuery] s'
                 else s') s ds =
  updated (close_dropdowns (filter P ds) (dom s))
    (replicate (length (filter P ds)) toggleQuery) s.
Proof.
  revert s. induction ds as [|d ds IH]; intros s.
  - simpl. symmetry. apply updated_id.
  - cbn [foldl]. rewrite IH. case_bool_decide as Hd.
    + rewrite filter_cons_True by done. by rewrite updated_updated.
    + by rewrite filter_cons_False.
Qed.

Lemma close_all_fold ds s :
  foldl (λ s' d, updated (close_dropdown d (dom s')) [toggleQuery] s') s ds =
  updated (close_dropdowns ds (dom s)) (replicate (length ds) toggleQuery) s.
Proof.
  revert s. induction ds as [|d ds IH]; intros s.
  - simpl. symmetry. apply updated_id.
  - cbn [foldl]. rewrite IH. by rewrite updated_updated.
Qed.

Lemma closeAllDropdowns_run env s :
  closeAllDropdowns env s =
  (Normal (), updated (close_dropdowns (navDropdowns env) (dom s))
                (replicate (length (navDropdowns env)) toggleQuery) s).
Proof.
  unfold closeAllDropdowns.
  rewrite (forEach_run _
    (λ d s', updated (close_dropdown d (dom s')) [toggleQuery] s')).
  - f_equal. apply close_all_fold.
  - intros d s'. run_script. unfold close_dropdown. simpl.
    by destruct (select_in _ _ _).
Qed.

Lemma closeOtherDropdowns_run env dropdown s :
  let others := filter (λ d, d ≠ dropdown) (navDropdowns env) in
  closeOtherDropdowns env dropdown s =
  (Normal (), updated (close_dropdowns others (dom s))
                (replicate (length others) toggleQuery) s).
Proof.
  intros others. unfold closeOtherDropdowns.
  rewrite (forEach_run _
    (λ d s', if bool_decide (d ≠ dropdown)
             then updated (close_dropdown d (dom s')) [toggleQuery] s'
             else s')).
  - f_equal. apply close_loop_fold.
  - intros d s'. case_bool_decide; [|done].
    run_script. unfold close_dropdown. simpl.
    by destruct (select_in _ _ _).
Qed.

Section MenuPresent.

Context (env : Env) (t m b : nat).
Context (Ht : menuToggle env = Some t) (Hm : navMenu env = Some m)
  (Hb : body env = Some b).

Lemma closeMobileMenu_run s :
  closeMobileMenu env s =
  (Normal (), updated (close_dropdowns (navDropdowns env)
                         (menu_closed_doc t m b (dom s))) (toggleQueries env) s).
Proof.
  unfold closeMobileMenu. rewrite Ht, Hm, Hb. run_script.
  by rewrite closeAllDropdowns_run.
Qed.

Lemma toggleMobileMenu_run s :
  let isOpen := bool_decide (attribute (dom s) t "aria-expanded" = Some "true") in
  toggleMobileMenu env s =
  (Normal (),
   if isOpen
   then updated (close_dropdowns (navDropdowns env)
                   (menu_toggled_doc t m b true (dom s))) (toggleQueries env) s
   else set_dom (menu_toggled_doc t m b false (dom s)) s).
Proof.
  intros isOpen. unfold toggleMobileMenu. rewrite Ht, Hm, Hb. run_script.
  fold isOpen. destruct isOpen; [|done].
  by rewrite closeAllDropdowns_run.
Qed.

End MenuPresent.

(** ** The menu and the dropdowns, closed and toggled *)

Lemma static_nav_dropdown : static (ByClass "nav-dropdown").
Proof. unfold static, state_classes. set_solver. Qed.

Lemma is_active_state_class : "is-active" ∈ state_classes.
Proof. set_solver. Qed.

Lemma menu_open_state_class : "menu-open" ∈ state_classes.
Proof. set_solver. Qed.

Create HintDb markup.

#[local] Hint Resolve static_nav_dropdown static_dropdownToggleSelector
  is_open_state_class is_active_state_class menu_open_state_class : markup.

Lemma select_lt doc sel i : select doc sel = Some i → i < length doc.
Proof.
  unfold select. intros H. apply head_Some_elem_of in H.
  by eapply select_all_lt.
Qed.

Section Cached.

Context (env : Env) (s : State) (Hc : cached env s).

Lemma cached_menuToggle_lt t : menuToggle env = Some t → t < length (dom s).
Proof. destruct Hc as [-> _]. apply select_lt. Qed.

Lemma cached_navMenu_lt m : navMenu env = Some m → m < length (dom s).
Proof. destruct Hc as [-> _]. apply select_lt. Qed.

Lemma cached_body_lt b : body env = Some b → b < length (dom s).
Proof. destruct Hc as [-> Hb]. simpl. intros E. by rewrite E in Hb. Qed.

Lemma cached_navDropdowns d : d ∈ navDropdowns env ↔ is_dropdown (dom s) d.
Proof. destruct Hc as [-> _]. apply select_all_matches. Qed.

End Cached.

Lemma is_dropdown_same doc doc' d :
  skeleton doc = skeleton doc' → is_dropdown doc d ↔ is_dropdown doc' d.
Proof.
  intros H. unfold is_dropdown.
  by rewrite <- !select_all_matches, (select_all_same doc doc' H)
    by auto with markup.
Qed.

Lemma dropdown_toggle_same doc doc' d :
  skeleton doc = skeleton doc' → dropdown_toggle doc d = dropdown_toggle doc' d.
Proof. intros H. apply select_in_same; auto with markup. Qed.

Lemma skeleton_menu_closed_doc t m b doc :
  skeleton (menu_closed_doc t m b doc) = skeleton doc.
Proof.
  unfold menu_closed_doc.
  rewrite !skeleton_remove_class by auto with markup.
  apply skeleton_set_attribute.
Qed.

Lemma skeleton_menu_toggled_doc t m b o doc :
  skeleton (menu_toggled_doc t m b o doc) = skeleton doc.
Proof.
  unfold menu_toggled_doc.
  rewrite !skeleton_toggle_class by auto with markup.
  apply skeleton_set_attribute.
Qed.

Lemma close_dropdowns_closed ds doc d :
  d ∈ ds → dropdown_closed (close_dropdowns ds doc) d.
Proof.
  intros Hd. split.
  - rewrite has_class_close_dropdowns.
    rewrite (bool_decide_eq_true_2 (d ∈ ds ∧ _)) by done.
    apply andb_false_r.
  - intros tg Htg. rewrite attribute_close_dropdowns.
    rewrite bool_decide_eq_true_2; [done|]. split; [|done].
    apply Exists_exists. exists d. split; [done|].
    rewrite <- Htg. symmetry. apply dropdown_toggle_same.
    apply skeleton_close_dropdowns.
Qed.

Lemma close_dropdowns_length ds doc :
  length (close_dropdowns ds doc) = length doc.
Proof. apply skeleton_eq_length, skeleton_close_dropdowns. Qed.

Lemma attribute_close_dropdowns_false ds doc i :
  attribute doc i "aria-expanded" = Some "false" →
  attribute (close_dropdowns ds doc) i "aria-expanded" = Some "false".
Proof.
  intros H. rewrite attribute_close_dropdowns. by case_bool_decide.
Qed.

Lemma has_class_close_dropdowns_false ds doc i c :
  has_class doc i c = false → has_class (close_dropdowns ds doc) i c = false.
Proof. intros H. rewrite has_class_close_dropdowns. by rewrite H. Qed.

Lemma close_all_menu_closed ds t m b doc :
  t < length doc →
  menu_closed (close_dropdowns ds (menu_closed_doc t m b doc)) t m b.
Proof.
  intros Ht. unfold menu_closed. split_and!.
  - apply attribute_close_dropdowns_false. unfold menu_closed_doc, remove_class.
    rewrite !attribute_alter_classes, attribute_set_attribute.
    by rewrite bool_decide_eq_true_2.
  - apply has_class_close_dropdowns_false. unfold menu_closed_doc.
    rewrite !has_class_remove.
    rewrite (bool_decide_eq_true_2 (m = m ∧ _)) by done.
    by rewrite andb_false_r.
  - apply has_class_close_dropdowns_false. unfold menu_closed_doc.
    rewrite has_class_remove.
    rewrite (bool_decide_eq_true_2 (b = b ∧ _)) by done.
    by rewrite andb_false_r.
Qed.

Lemma menu_toggled_doc_state t m b o doc :
  t < length doc → m < length doc → b < length doc →
  let doc' := menu_toggled_doc t m b o doc in
  attribute doc' t "aria-expanded" = Some (string_of_bool (negb o)) ∧
  has_class doc' m "is-active" = negb (has_class doc m "is-active") ∧
  has_class doc' b "menu-open" = negb (has_class doc b "menu-open").
Proof.
  intros Ht Hm Hb doc'. unfold doc', menu_toggled_doc. split_and!.
  - rewrite !attribute_toggle_class, attribute_set_attribute.
    by rewrite bool_decide_eq_true_2.
  - rewrite !has_class_toggle, has_class_set_attribute.
    rewrite (bool_decide_eq_false_2 (b = m ∧ _)) by naive_solver.
    rewrite bool_decide_eq_true_2; [done|].
    by rewrite length_set_attribute.
  - rewrite !has_class_toggle, has_class_set_attribute.
    rewrite (bool_decide_eq_false_2 (m = b ∧ _)) by naive_solver.
    rewrite bool_decide_eq_true_2; [done|].
    by rewrite length_toggle_class, length_set_attribute.
Qed.

Lemma menu_toggled_doc_is_open t m b o doc i :
  has_class (menu_toggled_doc t m b o doc) i "is-open" =
  has_class doc i "is-open".
Proof.
  unfold menu_toggled_doc.
  rewrite !has_class_toggle, has_class_set_attribute.
  by rewrite !bool_decide_eq_false_2 by naive_solver.
Qed.

Lemma menu_toggled_doc_attribute t m b o doc i a :
  i ≠ t →
  attribute (menu_toggled_doc t m b o doc) i a = attribute doc i a.
Proof.
  intros Hi. unfold menu_toggled_doc.
  rewrite !attribute_toggle_class, attribute_set_attribute.
  by rewrite bool_decide_eq_false_2 by naive_solver.
Qed.

Lemma closeMobileMenu_closes env s t m b :
  cached env s →
  menuToggle env = Some t → navMenu env = Some m → body env = Some b →
  let s' := exec (closeMobileMenu env) s in
  completes (closeMobileMenu env) s ∧
  menu_closed (dom s') t m b ∧
  ∀ d, is_dropdown (dom s') d → dropdown_closed (dom s') d.
Proof.
  intros Hc Ht Hm Hb s'. unfold s', completes, exec.
  rewrite (closeMobileMenu_run env t m b) by done. simpl.
  split_and!; [by eexists| |].
  - apply close_all_menu_closed. by eapply cached_menuToggle_lt.
  - intros d Hd. apply close_dropdowns_closed.
    eapply cached_navDropdowns; [done|].
    eapply is_dropdown_same; [|exact Hd].
    by rewrite skeleton_close_dropdowns, skeleton_menu_closed_doc.
Qed.

(** ** What the script leaves in place *)

Section Preserves.

Context (I : State → Prop).

Lemma preserves_ret {A} (a : A) : preserves I (mret a).
Proof. by intros s. Qed.

Lemma preserves_throw {A} : preserves I (@throw A).
Proof. by intros s. Qed.

Lemma preserves_gets {A} (f : State → A) : preserves I (gets f).
Proof. by intros s. Qed.

Lemma preserves_modify f : (∀ s, I s → I (f s)) → preserves I (modify f).
Proof. intros H s. apply H. Qed.

Lemma preserves_bind {A B} (m : Script A) (k : A → Script B) :
  preserves I m → (∀ a, preserves I (k a)) → preserves I (m ≫= k).
Proof.
  intros Hm Hk s Hs. unfold exec, mbind, script_bind.
  specialize (Hm s Hs). unfold exec in Hm.
  destruct (m s) as [[a|] s']; simpl in *; [|done].
  by apply Hk.
Qed.

Lemma preserves_forEach {A} (l : list A) (f : A → Script unit) :
  (∀ x, x ∈ l → preserves I (f x)) → preserves I (forEach l f).
Proof.
  induction l as [|x l IH]; intros Hf; simpl.
  - apply preserves_ret.
  - apply preserves_bind.
    + apply Hf. set_solver.
    + intros _. apply IH. intros y Hy. apply Hf. set_solver.
Qed.

Lemma preserves_when (c : bool) m : preserves I m → preserves I (when c m).
Proof. destruct c; [done|]. intros _. apply preserves_ret. Qed.

Lemma preserves_whenPresent r k :
  (∀ i, r = Some i → preserves I (k i)) → preserves I (whenPresent r k).
Proof. destruct r; simpl; [auto|]. intros _. apply preserves_ret. Qed.

Lemma preserves_nonNull r : preserves I (nonNull r).
Proof. destruct r; [apply preserves_ret|apply preserves_throw]. Qed.

End Preserves.

(** Splits a program into its primitive writes. *)
Ltac preserve_step :=
  first
    [ apply preserves_bind
    | apply preserves_ret
    | apply preserves_throw
    | apply preserves_gets
    | apply preserves_nonNull
    | apply preserves_when
    | apply preserves_whenPresent
    | apply preserves_forEach
    | apply preserves_modify ].

Ltac preserve :=
  repeat (intros; preserve_step); intros.

Ltac unfold_dom_api :=
  unfold querySelector, querySelectorAll, querySelectorIn,
    querySelectorAllIn, closestTo, containsNode, getAttribute, setAttribute,
    classList_contains, classList_add, classList_remove, classList_toggle,
    focus, preventDefault, addEventListener, cancelAnimationFrame, logQuery.

Lemma fixture_set_dom doc s :
  skeleton doc = skeleton (dom s) → fixture (set_dom doc s) = fixture s.
Proof. intros H. unfold fixture. simpl. by rewrite H. Qed.

Lemma backdrop_set_dom doc s :
  skeleton doc = skeleton (dom s) → backdrop (set_dom doc s) = backdrop s.
Proof.
  intros H. unfold backdrop. by rewrite fixture_set_dom.
Qed.

Lemma log_within_query sels m sel s :
  selector_text sel ∈ sels → log_within sels s →
  log_within sels (set_queryLog (queryLog s ++ [(m, selector_text sel)]) s).
Proof.
  intros Hsel Hs. unfold log_within. simpl.
  apply Forall_app. split; [done|]. by apply Forall_singleton.
Qed.

Lemma used_menu_toggle : selector_text (ByClass "menu-toggle") ∈ used_selectors.
Proof. vm_compute. repeat constructor. Qed.

Lemma used_nav_menu : selector_text (ByClass "nav-menu") ∈ used_selectors.
Proof. vm_compute. repeat constructor. Qed.

Lemma used_nav_dropdown :
  selector_text (ByClass "nav-dropdown") ∈ used_selectors.
Proof. vm_compute. repeat constructor. Qed.

Lemma used_dropdown_toggle :
  selector_text dropdownToggleSelector ∈ used_selectors.
Proof. vm_compute. repeat constructor. Qed.

Lemma used_plain_link :
  selector_text (TagWithoutAttr "a" "aria-haspopup") ∈ used_selectors.
Proof. vm_compute. repeat constructor. Qed.

Create HintDb selectors.

#[local] Hint Resolve used_menu_toggle used_nav_menu used_nav_dropdown
  used_dropdown_toggle used_plain_link : selectors.

#[local] Hint Resolve skeleton_add_class skeleton_remove_class
  skeleton_toggle_class skeleton_set_attribute : markup.

(** Close the goals [preserve] leaves: a primitive write keeps the
    backdrop, and logs a selector the script is known to use. *)
Ltac backdrop_write :=
  match goal with
  | H : backdrop _ = _ |- backdrop _ = _ =>
      first [ exact H
            | rewrite backdrop_set_dom; [exact H|auto with markup] ]
  end.

Ltac log_write :=
  match goal with
  | H : log_within _ _ |- log_within _ _ =>
      first [ exact H
            | apply log_within_query; [auto with selectors|exact H] ]
  end.

Ltac unfold_handlers :=
  unfold run, toggleMobileMenu, toggleDropdown, handleDropdownKeyboard,
    dropdownMouseEnter, dropdownMouseLeave, navLinkClick, handleClickOutside,
    handleEscapeKey, resizeCallback, updateDesktopState, closeMobileMenu,
    closeAllDropdowns, closeOtherDropdowns.

Lemma run_backdrop env x h event :
  h ≠ Resize → preserves (λ s, backdrop s = x) (run env h event).
Proof.
  destruct h; intros Hh; try done;
    unfold_handlers; unfold_dom_api; preserve; backdrop_write.
Qed.

Lemma resizeCallback_backdrop env x :
  preserves (λ s, backdrop s = x) (resizeCallback env).
Proof. unfold_handlers; unfold_dom_api; preserve; backdrop_write. Qed.

Lemma handleResize_log sels : preserves (log_within sels) handleResize.
Proof.
  unfold handleResize, requestAnimationFrame. unfold_dom_api.
  preserve; log_write.
Qed.

Lemma run_log env h event :
  preserves (log_within used_selectors) (run env h event).
Proof.
  destruct h; try apply handleResize_log;
    unfold_handlers; unfold_dom_api; preserve; log_write.
Qed.

Lemma resizeCallback_log env :
  preserves (log_within used_selectors) (resizeCallback env).
Proof. unfold_handlers; unfold_dom_api; preserve; log_write. Qed.

Lemma load_run s :
  load s =
  (Normal (snapshot s),
   set_resizeTimeout None
     (set_isDesktop (bool_decide (DESKTOP_BREAKPOINT ≤ innerWidth s)%Z)
        (set_queryLog
           (queryLog s ++ [(QuerySelector, ".menu-toggle");
                           (QuerySelector, ".nav-menu");
                           (QuerySelectorAll, ".nav-dropdown")]) s))).
Proof.
  unfold load. run_script. unfold snapshot. simpl.
  by rewrite <- !app_assoc.
Qed.

Lemma listener_added env tgt ty h s :
  listener_ok env (mkListener tgt ty h) →
  Forall (listener_ok env) (listeners s) →
  Forall (listener_ok env)
    (listeners (set_listeners (listeners s ++ [mkListener tgt ty h]) s)).
Proof.
  intros Hl Hs. simpl. apply Forall_app. split; [done|].
  by apply Forall_singleton.
Qed.

Lemma init_wiring env x : preserves (wiring env x) (init env).
Proof.
  unfold init. unfold_dom_api. preserve.
  all: match goal with
       | H : wiring _ _ _ |- wiring _ _ _ =>
           destruct H as (Hx & Hl & Hls); split_and!;
           [ exact Hx
           | first [ exact Hl
                   | apply log_within_query; [auto with selectors|exact Hl] ]
           | first [ exact Hls
                   | apply listener_added; [done|exact Hls] ] ]
       end.
Qed.

Lemma cached_same_markup env s s' :
  skeleton (dom s') = skeleton (dom s) →
  documentBody s' = documentBody s →
  cached env s → cached env s'.
Proof.
  intros Hsk Hb [-> Hatt]. split.
  - unfold snapshot. rewrite Hb.
    by rewrite !(select_same _ _ Hsk), (select_all_same _ _ Hsk)
      by (unfold static, state_classes; set_solver).
  - rewrite Hb. unfold attached in *.
    destruct (documentBody s); [|done].
    by rewrite (skeleton_eq_length _ _ Hsk).
Qed.

Lemma debounced_schedule s s' :
  schedule s' = schedule s → debounced s → debounced s'.
Proof.
  unfold schedule, debounced. intros [= -> -> ->]. done.
Qed.

(** [handleResize] from a debounced state: whatever was pending is
    cancelled and one new callback is scheduled. *)
Lemma handleResize_run s :
  debounced s →
  handleResize s =
  (Normal (),
   set_resizeTimeout (Some (S (frameCounter s)))
     (set_frames (S (frameCounter s)) [S (frameCounter s)] s)).
Proof.
  intros [_ Hp]. unfold handleResize. run_script.
  unfold requestAnimationFrame, cancelAnimationFrame. run_script.
  destruct Hp as [Hp|(h & Hp & Hr)].
  - destruct (resizeTimeout s) as [[|h]|]; simpl; rewrite ?Hp. all: done.
  - rewrite Hr. simpl. rewrite Hp.
    rewrite filter_cons_False, filter_nil by naive_solver. done.
Qed.

Lemma handleResize_debounced s :
  debounced s → debounced (exec handleResize s).
Proof.
  intros Hd. unfold exec. rewrite handleResize_run by done. simpl.
  split; simpl.
  - by apply Forall_singleton.
  - right. by exists (frameCounter s).
Qed.

Lemma debounced_cancel h s :
  debounced s →
  debounced (set_frames (frameCounter s)
               (filter (λ h', h' ≠ h) (pendingFrames s)) s).
Proof.
  intros [Hle Hp]. split; simpl.
  - rewrite Forall_forall in *. intros h' Hh'.
    apply list_elem_of_filter in Hh' as [_ Hh']. by apply Hle.
  - destruct Hp as [->|(h0 & -> & Hr)]; [by left|].
    destruct (decide (S h0 = h)) as [<-|Hne].
    + left. by rewrite filter_cons_False, filter_nil by naive_solver.
    + right. exists h0. by rewrite filter_cons_True, filter_nil.
Qed.

Lemma backdrop_fields s s' :
  backdrop s' = backdrop s →
  skeleton (dom s') = skeleton (dom s) ∧ documentBody s' = documentBody s ∧
  listeners s' = listeners s ∧ schedule s' = schedule s.
Proof. unfold backdrop, fixture. intros H. split_and!; congruence. Qed.

(** What a step leaves in place and what it maintains. *)
Lemma step_frame_conditions env s s' :
  step env s s' →
  skeleton (dom s') = skeleton (dom s) ∧ documentBody s' = documentBody s ∧
  listeners s' = listeners s ∧
  (log_within used_selectors s → log_within used_selectors s') ∧
  (debounced s → debounced s').
Proof.
  intros Hstep. destruct Hstep as [l event s Hl Hdel|h s Hh|width s].
  - split_and!; [| | |apply run_log|].
    all: assert (handler l = Resize ∨ handler l ≠ Resize) as [Hr|Hne]
      by (destruct (handler l); auto).
    all: try (rewrite Hr; simpl).
    all: try (apply (backdrop_fields s), (run_backdrop env _ _ event Hne s);
              done).
    + unfold handleResize, requestAnimationFrame, cancelAnimationFrame.
      run_script. by destruct (resizeTimeout s) as [[|h]|].
    + unfold handleResize, requestAnimationFrame, cancelAnimationFrame.
      run_script. by destruct (resizeTimeout s) as [[|h]|].
    + unfold handleResize, requestAnimationFrame, cancelAnimationFrame.
      run_script. by destruct (resizeTimeout s) as [[|h]|].
    + apply handleResize_debounced.
    + intros Hd. eapply debounced_schedule; [|exact Hd].
      by apply (backdrop_fields s), (run_backdrop env _ _ event Hne s).
  - set (s1 := set_frames (frameCounter s)
                 (filter (λ h', h' ≠ h) (pendingFrames s)) s).
    change (exec (runFrame env h) s) with (exec (resizeCallback env) s1).
    pose proof (resizeCallback_backdrop env (backdrop s1) s1 eq_refl) as Hb.
    apply backdrop_fields in Hb as (Hsk & Hbody & Hls & Hsch).
    split_and!; [done..| |].
    + intros Hlog. by apply (resizeCallback_log env s1).
    + intros Hd. eapply debounced_schedule; [exact Hsch|].
      by apply debounced_cancel.
  - split_and!; done.
Qed.

Lemma cached_step env s s' : cached env s → step env s s' → cached env s'.
Proof.
  intros Hc Hstep. apply step_frame_conditions in Hstep as (Hsk & Hb & _).
  by eapply cached_same_markup.
Qed.

Lemma invariant_step env s s' :
  invariant env s → step env s s' → invariant env s'.
Proof.
  intros (Hls & Hd & Hlog) Hstep.
  apply step_frame_conditions in Hstep as (_ & _ & Hl & Hlog' & Hd').
  refine (conj _ (conj (Hd' Hd) (Hlog' Hlog))). by rewrite Hl.
Qed.

Lemma boot_wiring doc bodyEl width counter canFocus env s :
  boot (fresh_page doc bodyEl width counter canFocus) = Some (env, s) →
  env = snapshot (fresh_page doc bodyEl width counter canFocus) ∧
  skeleton (dom s) = skeleton doc ∧ documentBody s = bodyEl ∧
  invariant env s.
Proof.
  unfold boot. rewrite load_run.
  set (s0 := fresh_page doc bodyEl width counter canFocus).
  set (s1 := set_resizeTimeout _ _).
  intros [= <- <-].
  destruct (init_wiring (snapshot s0) (fixture s1, schedule s1) s1)
    as (Hw & Hlog & Hls).
  { refine (conj eq_refl (conj _ (Forall_nil_2 _))).
    unfold log_within. simpl.
    repeat (apply Forall_cons; split; [vm_compute; repeat constructor|]).
    apply Forall_nil_2. }
  pose proof (f_equal fst Hw) as Hf. pose proof (f_equal snd Hw) as Hs.
  simpl in Hf, Hs. unfold fixture in Hf. injection Hf as Hsk Hbody _.
  split_and!; [done|exact Hsk|exact Hbody|].
  refine (conj Hls (conj _ Hlog)).
  eapply (debounced_schedule s1); [done|].
  split; simpl; [apply Forall_nil_2|by left].
Qed.

Lemma reachable_invariant doc bodyEl width counter canFocus env s :
  reachable (fresh_page doc bodyEl width counter canFocus) env s →
  invariant env s.
Proof.
  intros Hr. induction Hr as [s Hb|s s' _ IH Hstep].
  - by apply boot_wiring in Hb as (_ & _ & _ & ?).
  - by eapply invariant_step.
Qed.

Lemma reachable_cached doc bodyEl width counter canFocus env s :
  attached doc bodyEl →
  reachable (fresh_page doc bodyEl width counter canFocus) env s →
  cached env s.
Proof.
  intros Hatt Hr. induction Hr as [s Hb|s s' _ IH Hstep].
  - apply boot_wiring in Hb as (-> & Hsk & Hbody & _).
    eapply (cached_same_markup _
              (fresh_page doc bodyEl width counter canFocus));
      [done|done|]. by split.
  - by eapply cached_step.
Qed.

(** ** Hover and tap *)

Lemma toggleDropdown_desktop env d event s :
  isDesktop s = true →
  toggleDropdown env d event s = (Normal (), updated (dom s) [toggleQuery] s).
Proof.
  intros Hd. unfold toggleDropdown. run_script. simpl. by rewrite Hd.
Qed.

Lemma toggleDropdown_mobile env d event s :
  isDesktop s = false →
  toggleDropdown env d event s =
  let others := filter (λ d', d' ≠ d) (navDropdowns env) in
  (match dropdown_toggle (dom s) d with
   | Some _ => Normal ()
   | None => TypeError
   end,
   updated (tap_dropdown (navDropdowns env) d (dom s))
     (toggleQuery :: replicate (length others) toggleQuery)
     (set_defaultPrevented true s)).
Proof.
  intros Hd. unfold toggleDropdown. run_script. simpl. rewrite Hd. simpl.
  rewrite closeOtherDropdowns_run. simpl.
  unfold tap_dropdown, dropdown_toggle, updated. simpl.
  destruct (select_in (dom s) d dropdownToggleSelector); simpl;
    by rewrite <- app_assoc.
Qed.

Lemma dropdownMouseEnter_run d s :
  dropdownMouseEnter d s =
  (Normal (),
   if isDesktop s then updated (open_dropdown d (dom s)) [toggleQuery] s
   else s).
Proof.
  unfold dropdownMouseEnter. run_script. simpl.
  destruct (isDesktop s); [|done]. simpl. unfold open_dropdown.
  by destruct (select_in _ _ _).
Qed.

Lemma dropdownMouseLeave_run d s :
  dropdownMouseLeave d s =
  (Normal (),
   if isDesktop s then updated (close_dropdown d (dom s)) [toggleQuery] s
   else s).
Proof.
  unfold dropdownMouseLeave. run_script. simpl.
  destruct (isDesktop s); [|done]. simpl. unfold close_dropdown.
  by destruct (select_in _ _ _).
Qed.

Lemma is_dropdown_lt doc d : is_dropdown doc d → d < length doc.
Proof. intros (e & He & _). by eapply lookup_lt_Some. Qed.

Lemma skeleton_open_dropdown d doc :
  skeleton (open_dropdown d doc) = skeleton doc.
Proof.
  unfold open_dropdown.
  destruct (select_in _ _ _); rewrite ?skeleton_set_attribute;
    auto with markup.
Qed.

Lemma skeleton_tap_dropdown ds d doc :
  skeleton (tap_dropdown ds d doc) = skeleton doc.
Proof.
  unfold tap_dropdown.
  destruct (select_in _ _ _); rewrite ?skeleton_set_attribute;
    rewrite skeleton_toggle_class by auto with markup;
    apply skeleton_close_dropdowns.
Qed.

Lemma open_dropdown_open d doc :
  d < length doc →
  has_class (open_dropdown d doc) d "is-open" = true ∧
  ∀ tg, dropdown_toggle (open_dropdown d doc) d = Some tg →
        attribute (open_dropdown d doc) tg "aria-expanded" = Some "true".
Proof.
  intros Hd. split.
  - unfold open_dropdown.
    destruct (select_in _ _ _); rewrite ?has_class_set_attribute;
      rewrite has_class_add, bool_decide_eq_true_2 by done;
      apply orb_true_r.
  - intros tg.
    rewrite (dropdown_toggle_same _ doc) by apply skeleton_open_dropdown.
    rewrite <- (dropdown_toggle_same (add_class d "is-open" doc) doc)
      by auto with markup.
    unfold open_dropdown, dropdown_toggle. intros Htg. rewrite Htg.
    rewrite attribute_set_attribute, bool_decide_eq_true_2; [done|].
    split_and!; [done..|]. by apply select_in_lt in Htg.
Qed.

Lemma close_dropdown_closed d doc : dropdown_closed (close_dropdown d doc) d.
Proof.
  pose proof (close_dropdowns_closed [d] doc d) as H.
  apply H. set_solver.
Qed.

Lemma tap_dropdown_flips ds d doc :
  d < length doc →
  has_class (tap_dropdown ds d doc) d "is-open" =
  negb (has_class doc d "is-open").
Proof.
  intros Hd. unfold tap_dropdown.
  destruct (select_in _ _ _); rewrite ?has_class_set_attribute;
    rewrite has_class_toggle, bool_decide_eq_true_2
      by (by rewrite close_dropdowns_length);
    rewrite has_class_close_dropdowns, bool_decide_eq_false_2,
      andb_true_r; try done;
    intros [Hin _]; apply list_elem_of_filter in Hin; naive_solver.
Qed.

Lemma tap_dropdown_others ds d doc d' :
  d' ∈ ds → d' ≠ d →
  has_class (tap_dropdown ds d doc) d' "is-open" = false.
Proof.
  intros Hin Hne. unfold tap_dropdown.
  destruct (select_in _ _ _); rewrite ?has_class_set_attribute;
    rewrite has_class_toggle, bool_decide_eq_false_2 by naive_solver;
    rewrite has_class_close_dropdowns, bool_decide_eq_true_2;
    rewrite ?andb_false_r; try done;
    (split; [|done]); apply list_elem_of_filter; done.
Qed.

Lemma tap_dropdown_toggle ds d doc tg :
  dropdown_toggle doc d = Some tg →
  attribute (tap_dropdown ds d doc) tg "aria-expanded" =
  Some (string_of_bool (negb (has_class doc d "is-open"))).
Proof.
  unfold tap_dropdown, dropdown_toggle. intros Htg. rewrite Htg.
  rewrite attribute_set_attribute, bool_decide_eq_true_2; [done|].
  split_and!; [done..|].
  rewrite length_toggle_class, close_dropdowns_length.
  by apply select_in_lt in Htg.
Qed.

Lemma tap_dropdown_other_toggle ds d doc d' tg :
  d' ∈ ds → d' ≠ d →
  dropdown_toggle doc d' = Some tg → dropdown_toggle doc d ≠ Some tg →
  attribute (tap_dropdown ds d doc) tg "aria-expanded" = Some "false".
Proof.
  intros Hin Hne Htg Hd. unfold tap_dropdown.
  assert (Hclosed : attribute
            (toggle_class d "is-open"
               (close_dropdowns (filter (λ d', d' ≠ d) ds) doc))
            tg "aria-expanded" = Some "false").
  { rewrite attribute_toggle_class, attribute_close_dropdowns.
    rewrite bool_decide_eq_true_2; [done|]. split; [|done].
    apply Exists_exists. exists d'. split; [|done].
    by apply list_elem_of_filter. }
  unfold dropdown_toggle in Hd.
  destruct (select_in doc d dropdownToggleSelector) as [t|]; [|done].
  rewrite attribute_set_attribute, bool_decide_eq_false_2; [done|].
  intros (-> & _). done.
Qed.

Lemma closest_exists doc d0 tg sel :
  matches_at doc sel d0 → descendant doc d0 tg →
  ∃ d, closest doc tg sel = Some d ∧ matches_at doc sel d.
Proof.
  intros Hm [_ Hc]. unfold closest, contains in *.
  destruct (filter (matches_at doc sel) (inclusive_ancestors doc tg))
    as [|d l] eqn:E.
  - exfalso. eapply (filter_nil_not_elem_of _ _ d0); eauto.
  - exists d. split; [done|].
    assert (d ∈ filter (matches_at doc sel) (inclusive_ancestors doc tg))
      as Hd by (rewrite E; set_solver).
    by apply list_elem_of_filter in Hd as [Hd _].
Qed.

Lemma closest_matches doc start sel d :
  closest doc start sel = Some d → matches_at doc sel d.
Proof.
  unfold closest. intros H. apply head_Some_elem_of in H.
  by apply list_elem_of_filter in H as [H _].
Qed.

Lemma handleDropdownKeyboard_tap env event s d :
  closest (dom s) (target event) (ByClass "nav-dropdown") = Some d →
  key event = "Enter" ∨ key event = " " →
  isDesktop s = false →
  dom (exec (handleDropdownKeyboard env event) s) =
  tap_dropdown (navDropdowns env) d (dom s).
Proof.
  intros Hc Hk Hmob. unfold handleDropdownKeyboard, exec. run_script. simpl.
  rewrite Hc. simpl.
  assert (bool_decide (key event = "Enter") || bool_decide (key event = " ")
          = true) as ->.
  { destruct Hk as [->| ->]; done. }
  set (s1 := set_queryLog _ s).
  change (isDesktop s1) with (isDesktop s). rewrite Hmob. simpl.
  rewrite toggleDropdown_mobile by done. simpl.
  destruct (dropdown_toggle (dom s) d); simpl; [|done].
  rewrite bool_decide_eq_false_2; [done|].
  destruct Hk as [->| ->]; done.
Qed.

Lemma tap_dropdown_at_most_one ds d doc :
  (∀ d', is_dropdown doc d' → d' ∈ ds) →
  at_most_one_open (tap_dropdown ds d doc).
Proof.
  intros Hall d1 d2 H1 H2 O1 O2.
  apply (is_dropdown_same _ doc) in H1; [|apply skeleton_tap_dropdown].
  apply (is_dropdown_same _ doc) in H2; [|apply skeleton_tap_dropdown].
  destruct (decide (d1 = d)) as [->|N1].
  - destruct (decide (d2 = d)) as [->|N2]; [done|].
    rewrite tap_dropdown_others in O2 by auto. done.
  - rewrite tap_dropdown_others in O1 by auto. done.
Qed.

(** ** The effect of a listener on the menu state *)

Section Effects.

Context (env : Env) (t m b : nat).
Context (Ht : menuToggle env = Some t) (Hm : navMenu env = Some m)
  (Hb : body env = Some b).

Lemma closeMobileMenu_effect s :
  effect env t m b (dom s) (dom (exec (closeMobileMenu env) s)).
Proof.
  unfold exec. rewrite (closeMobileMenu_run env t m b) by done.
  apply effect_close_menu.
Qed.

Lemma toggleMobileMenu_effect s :
  effect env t m b (dom s) (dom (exec (toggleMobileMenu env) s)).
Proof.
  unfold exec. rewrite (toggleMobileMenu_run env t m b) by done.
  fold (expanded (dom s) t). destruct (expanded (dom s) t) eqn:E; simpl.
  - by apply effect_shut_menu.
  - by apply effect_open_menu.
Qed.

Lemma toggleDropdown_effect d event s :
  d ∈ navDropdowns env →
  effect env t m b (dom s) (dom (exec (toggleDropdown env d event) s)).
Proof.
  intros Hd. unfold exec. destruct (isDesktop s) eqn:E.
  - rewrite toggleDropdown_desktop by done. apply effect_none.
  - rewrite toggleDropdown_mobile by done. by apply effect_tap.
Qed.

Lemma when_closeMobileMenu_effect (c : bool) s :
  effect env t m b (dom s) (dom (exec (when c (closeMobileMenu env)) s)).
Proof.
  destruct c; [apply closeMobileMenu_effect|apply effect_none].
Qed.

Lemma handleClickOutside_effect event s :
  effect env t m b (dom s) (dom (exec (handleClickOutside env event) s)).
Proof.
  unfold handleClickOutside. rewrite Ht, Hm. run_script.
  apply (when_closeMobileMenu_effect _ s).
Qed.

Lemma handleEscapeKey_effect event s :
  effect env t m b (dom s) (dom (exec (handleEscapeKey env event) s)).
Proof. apply when_closeMobileMenu_effect. Qed.

Lemma navLinkClick_effect s :
  effect env t m b (dom s) (dom (exec (navLinkClick env) s)).
Proof.
  unfold navLinkClick. run_script. apply (when_closeMobileMenu_effect _ s).
Qed.

Lemma resizeCallback_effect s :
  effect env t m b (dom s) (dom (exec (resizeCallback env) s)).
Proof.
  unfold resizeCallback, updateDesktopState. run_script. simpl.
  set (s1 := set_isDesktop _ s).
  apply (when_closeMobileMenu_effect _ s1).
Qed.

Lemma dropdownMouseEnter_effect d s :
  d ∈ navDropdowns env →
  effect env t m b (dom s) (dom (exec (dropdownMouseEnter d) s)).
Proof.
  intros Hd. unfold exec. rewrite dropdownMouseEnter_run. simpl.
  destruct (isDesktop s); [by apply effect_open|apply effect_none].
Qed.

Lemma dropdownMouseLeave_effect d s :
  d ∈ navDropdowns env →
  effect env t m b (dom s) (dom (exec (dropdownMouseLeave d) s)).
Proof.
  intros Hd. unfold exec. rewrite dropdownMouseLeave_run. simpl.
  destruct (isDesktop s); [by apply effect_close|apply effect_none].
Qed.

Lemma handleDropdownKeyboard_effect event s :
  cached env s →
  effect env t m b (dom s) (dom (exec (handleDropdownKeyboard env event) s)).
Proof.
  intros Hc. unfold handleDropdownKeyboard, exec. run_script. simpl.
  destruct (closest (dom s) (target event) (ByClass "nav-dropdown"))
    as [d|] eqn:E; simpl; [|apply effect_none].
  assert (Hd : d ∈ navDropdowns env).
  { eapply cached_navDropdowns; [done|]. by eapply closest_matches. }
  set (s1 := set_queryLog _ s).
  change (isDesktop s1) with (isDesktop s).
  destruct (bool_decide (key event = "Escape")) eqn:Hesc.
  - apply bool_decide_eq_true in Hesc. rewrite Hesc. simpl.
    pose proof (effect_close env t m b (dom s) d Hd) as Heff.
    unfold close_dropdown in Heff.
    destruct (select_in _ _ _) as [tg|]; [|done].
    simpl. by destruct (focusable _ tg).
  - destruct (bool_decide (key event = "Enter")
              || bool_decide (key event = " ")); simpl;
      [|apply effect_none].
    destruct (isDesktop s) eqn:Hdesk; simpl; [apply effect_none|].
    rewrite toggleDropdown_mobile by done. simpl.
    destruct (dropdown_toggle (dom s) d); simpl; by apply effect_tap.
Qed.

End Effects.

(** The dropdown operations write [is-open] and the [aria-expanded] of
    toggle links, nothing else. *)

Lemma has_class_close_dropdowns_other ds doc i c :
  c ≠ "is-open" → has_class (close_dropdowns ds doc) i c = has_class doc i c.
Proof.
  intros Hc. rewrite has_class_close_dropdowns.
  rewrite bool_decide_eq_false_2 by naive_solver. apply andb_true_r.
Qed.

Lemma has_class_tap_dropdown_other ds d doc i c :
  c ≠ "is-open" → has_class (tap_dropdown ds d doc) i c = has_class doc i c.
Proof.
  intros Hc. unfold tap_dropdown.
  destruct (select_in _ _ _); rewrite ?has_class_set_attribute;
    rewrite has_class_toggle, bool_decide_eq_false_2 by naive_solver;
    by apply has_class_close_dropdowns_other.
Qed.

Lemma has_class_open_dropdown_other d doc i c :
  c ≠ "is-open" → has_class (open_dropdown d doc) i c = has_class doc i c.
Proof.
  intros Hc. unfold open_dropdown.
  destruct (select_in _ _ _); rewrite ?has_class_set_attribute;
    rewrite has_class_add, bool_decide_eq_false_2 by naive_solver;
    apply orb_false_r.
Qed.

Lemma has_class_close_dropdown_other d doc i c :
  c ≠ "is-open" → has_class (close_dropdown d doc) i c = has_class doc i c.
Proof.
  intros Hc. rewrite has_class_close_dropdown.
  rewrite bool_decide_eq_false_2 by naive_solver. apply andb_true_r.
Qed.

Lemma attribute_close_dropdowns_other ds doc i a :
  ¬ toggle_of doc ds i →
  attribute (close_dropdowns ds doc) i a = attribute doc i a.
Proof.
  intros Hi. rewrite attribute_close_dropdowns.
  by rewrite bool_decide_eq_false_2 by naive_solver.
Qed.

Lemma toggle_of_filter doc (P : nat → Prop) `{!∀ d, Decision (P d)} ds i :
  toggle_of doc (filter P ds) i → toggle_of doc ds i.
Proof.
  unfold toggle_of. rewrite !Exists_exists. intros (d & Hd & Hi).
  apply list_elem_of_filter in Hd as [_ Hd]. eauto.
Qed.

Lemma toggle_of_elem doc ds d i :
  d ∈ ds → dropdown_toggle doc d = Some i → toggle_of doc ds i.
Proof. intros Hd Hi. apply Exists_exists. eauto. Qed.

Lemma attribute_tap_dropdown_other ds d doc i a :
  d ∈ ds → ¬ toggle_of doc ds i →
  attribute (tap_dropdown ds d doc) i a = attribute doc i a.
Proof.
  intros Hd Hi. unfold tap_dropdown.
  destruct (select_in doc d dropdownToggleSelector) as [tg|] eqn:E.
  - rewrite attribute_set_attribute, bool_decide_eq_false_2.
    + rewrite attribute_toggle_class. apply attribute_close_dropdowns_other.
      intros H. by apply toggle_of_filter in H.
    + intros (-> & _). apply Hi. by eapply toggle_of_elem.
  - rewrite attribute_toggle_class. apply attribute_close_dropdowns_other.
    intros H. by apply toggle_of_filter in H.
Qed.

Lemma attribute_open_dropdown_other ds d doc i a :
  d ∈ ds → ¬ toggle_of doc ds i →
  attribute (open_dropdown d doc) i a = attribute doc i a.
Proof.
  intros Hd Hi. unfold open_dropdown.
  destruct (select_in (add_class d "is-open" doc) d dropdownToggleSelector)
    as [tg|] eqn:E; [|apply attribute_add_class].
  rewrite attribute_set_attribute, bool_decide_eq_false_2;
    [apply attribute_add_class|].
  intros (-> & _). apply Hi. eapply toggle_of_elem; [done|].
  rewrite <- E. apply dropdown_toggle_same. symmetry. auto with markup.
Qed.

Lemma attribute_close_dropdown_other ds d doc i a :
  d ∈ ds → ¬ toggle_of doc ds i →
  attribute (close_dropdown d doc) i a = attribute doc i a.
Proof.
  intros Hd Hi. rewrite attribute_close_dropdown.
  rewrite bool_decide_eq_false_2; [done|].
  intros [H _]. apply Hi. by eapply toggle_of_elem.
Qed.

Lemma menu_closed_synchronized doc t m b :
  menu_closed doc t m b → synchronized doc t m b.
Proof.
  intros (Ha & Hm & Hb). unfold synchronized, expanded.
  rewrite Ha, Hm, Hb. done.
Qed.

Lemma menu_state_synchronized doc doc' t m b :
  menu_state doc' t m b = menu_state doc t m b →
  synchronized doc t m b → synchronized doc' t m b.
Proof.
  unfold menu_state, synchronized, expanded. intros [= -> -> ->]. done.
Qed.

Lemma effect_synchronized env t m b doc doc' :
  t < length doc → m < length doc → b < length doc →
  ¬ toggle_of doc (navDropdowns env) t →
  effect env t m b doc doc' →
  synchronized doc t m b → synchronized doc' t m b.
Proof.
  intros Ht Hm Hb Hno Heff Hsync.
  destruct Heff as [| |Hexp|Hexp|d Hd|d Hd|d Hd].
  - done.
  - apply menu_closed_synchronized. by apply close_all_menu_closed.
  - destruct (menu_toggled_doc_state t m b false doc) as (Ha & Hm' & Hb');
      [done..|].
    destruct Hsync as [H1 H2]. unfold synchronized, expanded.
    rewrite Ha, Hm', Hb'. rewrite <- H2, <- H1, Hexp. done.
  - destruct (menu_toggled_doc_state t m b true doc) as (Ha & Hm' & Hb');
      [done..|].
    destruct Hsync as [H1 H2]. rewrite <- H2, <- H1, Hexp in Hb'.
    rewrite <- H1, Hexp in Hm'.
    apply menu_closed_synchronized. split_and!.
    + by apply attribute_close_dropdowns_false.
    + by apply has_class_close_dropdowns_false.
    + by apply has_class_close_dropdowns_false.
  - eapply menu_state_synchronized; [|done]. unfold menu_state.
    rewrite attribute_tap_dropdown_other, !has_class_tap_dropdown_other;
      done.
  - eapply menu_state_synchronized; [|done]. unfold menu_state.
    rewrite (attribute_open_dropdown_other (navDropdowns env)),
      !has_class_open_dropdown_other; done.
  - eapply menu_state_synchronized; [|done]. unfold menu_state.
    rewrite (attribute_close_dropdown_other (navDropdowns env)),
      !has_class_close_dropdown_other; done.
Qed.

Lemma run_effect env t m b l event s :
  menuToggle env = Some t → navMenu env = Some m → body env = Some b →
  cached env s → listener_ok env l →
  effect env t m b (dom s) (dom (exec (run env (handler l) event) s)).
Proof.
  intros Ht Hm Hb Hc Hok. unfold listener_ok in Hok.
  destruct (handler l); simpl.
  - by apply toggleMobileMenu_effect.
  - by apply toggleDropdown_effect.
  - by apply handleDropdownKeyboard_effect.
  - by apply dropdownMouseEnter_effect.
  - by apply dropdownMouseLeave_effect.
  - by apply navLinkClick_effect.
  - by apply handleClickOutside_effect.
  - replace (dom (exec handleResize s)) with (dom s); [apply effect_none|].
    unfold handleResize, requestAnimationFrame, cancelAnimationFrame.
    run_script. by destruct (resizeTimeout s) as [[|h]|].
  - by apply handleEscapeKey_effect.
Qed.

(** ** Missing elements *)

Lemma forEach_normal {A} (f : A → Script unit) l s :
  (∀ x s', fst (f x s') = Normal ()) → fst (forEach l f s) = Normal ().
Proof.
  intros Hf. revert s. induction l as [|x l IH]; intros s; [done|].
  cbn [forEach]. unfold mbind, script_bind.
  specialize (Hf x s). destruct (f x s) as [[[]|] s']; [apply IH|done].
Qed.

(** Without a [.nav-menu], [init] raises a TypeError at line 212. *)
Lemma init_raises_without_menu env s :
  navMenu env = None → fst (init env s) = TypeError.
Proof.
  intros Hm. unfold init. rewrite Hm.
  unfold mbind at 1, script_bind at 1.
  destruct (whenPresent (menuToggle env) _ s) as [[[]|] s1] eqn:E1.
  2: { by destruct (menuToggle env). }
  unfold mbind at 1, script_bind at 1.
  match goal with
  | |- context [forEach ?l ?f s1] =>
      pose proof (forEach_normal f l s1) as Hloop;
      destruct (forEach l f s1) as [[[]|] s2]
  end.
  - done.
  - simpl in Hloop. discriminate Hloop.
    intros d s'. run_script. simpl.
    by destruct (select_in _ _ _).
Qed.

(** Without a [.menu-toggle], [closeMobileMenu] raises at line 49, and
    with it the Escape listener; the click listener of the document
    raises when either element is missing. *)
Lemma closeMobileMenu_raises_without_toggle env s :
  menuToggle env = None → fst (closeMobileMenu env s) = TypeError.
Proof. intros Ht. unfold closeMobileMenu. by rewrite Ht. Qed.

Lemma handleEscapeKey_raises_without_toggle env event s :
  menuToggle env = None → key event = "Escape" →
  fst (handleEscapeKey env event s) = TypeError.
Proof.
  intros Ht Hk. unfold handleEscapeKey.
  rewrite bool_decide_eq_true_2 by done.
  by apply closeMobileMenu_raises_without_toggle.
Qed.

Lemma handleClickOutside_raises env event s :
  menuToggle env = None ∨ navMenu env = None →
  fst (handleClickOutside env event s) = TypeError.
Proof.
  intros H. unfold handleClickOutside.
  destruct (navMenu env); [|done].
  destruct H as [->|?]; done.
Qed.

(** ** The properties of the specification *)

(** C1 does not hold of the code. On a page with the menu button but no
    [.nav-menu], [init] registers the button's listener and then raises a
    TypeError, and a click on the button raises one too; on a page with
    the menu but no [.menu-toggle], [init] ends normally and the Escape
    and click listeners of the document raise a TypeError. *)
Theorem null_lookups_raise :
  (fst (load (fresh_page no_menu_doc (Some 0) 800 0
                (focusable_by_markup no_menu_doc)))
     = Normal no_menu_env ∧
   fst (init no_menu_env no_menu_loaded) = TypeError ∧
   listeners (exec (init no_menu_env) no_menu_loaded) =
     [mkListener (OnElement 1) "click" ToggleMobileMenu] ∧
   fst (toggleMobileMenu no_menu_env (exec (init no_menu_env) no_menu_loaded))
     = TypeError) ∧
  (fst (load (fresh_page no_toggle_doc (Some 0) 800 0
                (focusable_by_markup no_toggle_doc)))
     = Normal no_toggle_env ∧
   fst (init no_toggle_env
          (exec load (fresh_page no_toggle_doc (Some 0) 800 0
                        (focusable_by_markup no_toggle_doc))))
     = Normal () ∧
   mkListener OnDocument "keydown" EscapeKey ∈ listeners no_toggle_state ∧
   mkListener OnDocument "click" ClickOutside ∈ listeners no_toggle_state ∧
   fst (handleEscapeKey no_toggle_env (mkEvent 0 "Escape") no_toggle_state)
     = TypeError ∧
   fst (handleClickOutside no_toggle_env (mkEvent 0 "") no_toggle_state)
     = TypeError).
Proof.
  split; split_and!; try (vm_compute; reflexivity);
    vm_compute; repeat constructor.
Qed.

(** C2, as amended. With the menu closed in all three encodings (the
    toggle's [aria-expanded] is not "true", the menu lacks [is-active],
    the body lacks [menu-open]), a click on the menu toggle ends normally,
    sets [aria-expanded="true"], adds [is-active] and [menu-open], and
    leaves every element's [is-open] class, every dropdown's toggle link
    and the [aria-expanded] of every element other than the menu toggle
    unchanged. *)
Theorem toggle_opens_closed_menu env s t m b :
  cached env s →
  menuToggle env = Some t → navMenu env = Some m → body env = Some b →
  attribute (dom s) t "aria-expanded" ≠ Some "true" →
  has_class (dom s) m "is-active" = false →
  has_class (dom s) b "menu-open" = false →
  let s' := exec (toggleMobileMenu env) s in
  completes (toggleMobileMenu env) s ∧
  attribute (dom s') t "aria-expanded" = Some "true" ∧
  has_class (dom s') m "is-active" = true ∧
  has_class (dom s') b "menu-open" = true ∧
  ∀ d, has_class (dom s') d "is-open" = has_class (dom s) d "is-open" ∧
       dropdown_toggle (dom s') d = dropdown_toggle (dom s) d ∧
       ∀ tg, dropdown_toggle (dom s) d = Some tg → tg ≠ t →
             attribute (dom s') tg "aria-expanded" =
             attribute (dom s) tg "aria-expanded".
Proof.
  intros Hc Ht Hm Hb Hclosed Hact Hopen s'.
  unfold s', completes, exec.
  rewrite (toggleMobileMenu_run env t m b) by done.
  rewrite bool_decide_eq_false_2 by done. simpl.
  destruct (menu_toggled_doc_state t m b false (dom s)) as (Ha & Hm' & Hb');
    eauto using cached_menuToggle_lt, cached_navMenu_lt, cached_body_lt.
  rewrite Ha, Hm', Hb', Hact, Hopen.
  split_and!; [by eexists|done..|]. intros d. split_and!.
  - apply menu_toggled_doc_is_open.
  - apply dropdown_toggle_same, skeleton_menu_toggled_doc.
  - intros tg _ Hne. by apply menu_toggled_doc_attribute.
Qed.

Lemma toggle_opens_closed_menu_witness :
  let s' := exec (toggleMobileMenu demo_env) (demo_state 800) in
  attribute (dom s') 1 "aria-expanded" = Some "true" ∧
  has_class (dom s') 2 "is-active" = true ∧
  has_class (dom s') 0 "menu-open" = true.
Proof.
  intros s'.
  destruct (toggle_opens_closed_menu demo_env (demo_state 800) 1 2 0)
    as (_ & H1 & H2 & H3 & _).
  - split; [vm_compute; reflexivity|vm_compute; lia].
  - reflexivity.
  - reflexivity.
  - reflexivity.
  - vm_compute. discriminate.
  - vm_compute. reflexivity.
  - vm_compute. reflexivity.
  - exact (conj H1 (conj H2 H3)).
Defined.

(** C2 as stated fails in two ways: when the button says collapsed but the
    menu already has [is-active], the click removes [is-active]; and when
    the menu toggle is itself the toggle link of a dropdown, the click
    changes the [aria-expanded] of that dropdown's toggle. *)
Lemma toggle_opens_counterexample :
  (attribute (dom stale_active_state) 1 "aria-expanded" ≠ Some "true" ∧
   has_class (dom (exec (toggleMobileMenu demo_env) stale_active_state))
     2 "is-active" = false) ∧
  (let s := shared_toggle_state 800 in
   let s' := exec (toggleMobileMenu shared_toggle_env) s in
   attribute (dom s) 3 "aria-expanded" ≠ Some "true" ∧
   dropdown_toggle (dom s) 2 = Some 3 ∧
   attribute (dom s) 3 "aria-expanded" = Some "false" ∧
   attribute (dom s') 3 "aria-expanded" = Some "true").
Proof.
  vm_compute. repeat split; try reflexivity; discriminate.
Qed.

(** C3, as amended. With the menu open in all three encodings (the
    toggle's [aria-expanded] is "true", the menu has [is-active], the body
    has [menu-open]), a click on the menu toggle ends normally, sets
    [aria-expanded="false"], removes [is-active] and [menu-open], and
    closes every [.nav-dropdown]: none keeps [is-open] and the toggle link
    of each has [aria-expanded="false"]. *)
Theorem toggle_closes_open_menu env s t m b :
  cached env s →
  menuToggle env = Some t → navMenu env = Some m → body env = Some b →
  attribute (dom s) t "aria-expanded" = Some "true" →
  has_class (dom s) m "is-active" = true →
  has_class (dom s) b "menu-open" = true →
  let s' := exec (toggleMobileMenu env) s in
  completes (toggleMobileMenu env) s ∧
  menu_closed (dom s') t m b ∧
  ∀ d, is_dropdown (dom s') d → dropdown_closed (dom s') d.
Proof.
  intros Hc Ht Hm Hb Hexp Hact Hopen s'.
  unfold s', completes, exec.
  rewrite (toggleMobileMenu_run env t m b) by done.
  rewrite bool_decide_eq_true_2 by done. simpl.
  destruct (menu_toggled_doc_state t m b true (dom s)) as (Ha & Hm' & Hb');
    eauto using cached_menuToggle_lt, cached_navMenu_lt, cached_body_lt.
  rewrite Hact in Hm'. rewrite Hopen in Hb'.
  split_and!; [by eexists| |].
  - split_and!;
      auto using attribute_close_dropdowns_false,
        has_class_close_dropdowns_false.
  - intros d Hd. apply close_dropdowns_closed.
    eapply cached_navDropdowns; [done|].
    eapply is_dropdown_same; [|exact Hd].
    by rewrite skeleton_close_dropdowns, skeleton_menu_toggled_doc.
Qed.

Lemma toggle_closes_open_menu_witness :
  let s' := exec (toggleMobileMenu demo_env) (demo_open 800) in
  menu_closed (dom s') 1 2 0 ∧
  ∀ d, is_dropdown (dom s') d → dropdown_closed (dom s') d.
Proof.
  intros s'.
  destruct (toggle_closes_open_menu demo_env (demo_open 800) 1 2 0)
    as (_ & H1 & H2).
  - split; [vm_compute; reflexivity|vm_compute; lia].
  - reflexivity.
  - reflexivity.
  - reflexivity.
  - vm_compute. reflexivity.
  - vm_compute. reflexivity.
  - vm_compute. reflexivity.
  - exact (conj H1 H2).
Defined.

(** C3 as stated fails when the button says expanded but the menu lacks
    [is-active]: the click adds [is-active] instead of removing it. *)
Lemma toggle_closes_counterexample :
  attribute (dom stale_expanded_state) 1 "aria-expanded" = Some "true" ∧
  has_class (dom (exec (toggleMobileMenu demo_env) stale_expanded_state))
    2 "is-active" = true.
Proof. vm_compute. split; reflexivity. Qed.

(** C4. A dropdown is revealed on hover on desktop and on tap on mobile.
    For a [.nav-dropdown] [d]: when [isDesktop] is true, mouseenter adds
    [is-open] and sets the toggle link's [aria-expanded] to "true",
    mouseleave removes [is-open] and sets it to "false", and a click on
    the toggle changes nothing (the log of queries aside) and does not
    prevent the default; when [isDesktop] is false, a click on the toggle
    link prevents the default, flips [is-open] on [d] and sets the
    toggle's [aria-expanded] to the new value. *)
Theorem dropdown_hover_and_tap env s d event :
  is_dropdown (dom s) d →
  (isDesktop s = true →
   (let s' := exec (dropdownMouseEnter d) s in
    completes (dropdownMouseEnter d) s ∧
    has_class (dom s') d "is-open" = true ∧
    ∀ tg, dropdown_toggle (dom s') d = Some tg →
          attribute (dom s') tg "aria-expanded" = Some "true") ∧
   (let s' := exec (dropdownMouseLeave d) s in
    completes (dropdownMouseLeave d) s ∧ dropdown_closed (dom s') d) ∧
   (let s' := exec (toggleDropdown env d event) s in
    completes (toggleDropdown env d event) s ∧
    same_but_log s s' ∧ defaultPrevented s' = defaultPrevented s)) ∧
  (isDesktop s = false →
   ∀ tg, dropdown_toggle (dom s) d = Some tg →
   let s' := exec (toggleDropdown env d event) s in
   completes (toggleDropdown env d event) s ∧
   defaultPrevented s' = true ∧
   has_class (dom s') d "is-open" = negb (has_class (dom s) d "is-open") ∧
   attribute (dom s') tg "aria-expanded" =
   Some (string_of_bool (has_class (dom s') d "is-open"))).
Proof.
  intros Hd. apply is_dropdown_lt in Hd as Hlt. split.
  - intros Hdesk. unfold completes, exec. split_and!.
    + rewrite dropdownMouseEnter_run. by eexists.
    + rewrite dropdownMouseEnter_run, Hdesk. simpl.
      by apply open_dropdown_open.
    + rewrite dropdownMouseEnter_run, Hdesk. simpl.
      by apply open_dropdown_open.
    + rewrite dropdownMouseLeave_run. by eexists.
    + rewrite dropdownMouseLeave_run, Hdesk. simpl.
      apply close_dropdown_closed.
    + rewrite toggleDropdown_desktop by done. by eexists.
    + rewrite toggleDropdown_desktop by done. by destruct s.
    + by rewrite toggleDropdown_desktop.
  - intros Hmob tg Htg. unfold completes, exec.
    rewrite toggleDropdown_mobile by done. rewrite Htg. simpl.
    rewrite tap_dropdown_flips by done.
    split_and!; [by eexists|done..|].
    by apply tap_dropdown_toggle.
Qed.

Lemma dropdown_hover_and_tap_witness :
  (let s' := exec (dropdownMouseEnter 3) (demo_state 1280) in
   has_class (dom s') 3 "is-open" = true ∧
   attribute (dom s') 4 "aria-expanded" = Some "true") ∧
  (let s' := exec (toggleDropdown demo_env 3 (mkEvent 4 "")) (demo_state 800) in
   defaultPrevented s' = true ∧
   has_class (dom s') 3 "is-open" = true ∧
   attribute (dom s') 4 "aria-expanded" = Some "true").
Proof.
  split.
  - destruct (dropdown_hover_and_tap demo_env (demo_state 1280) 3
                (mkEvent 4 "")) as [H _].
    + vm_compute. eexists. split; [reflexivity|]. vm_compute.
      repeat constructor.
    + destruct H as ((_ & H1 & H2) & _); [vm_compute; reflexivity|].
      split; [exact H1|]. apply H2. vm_compute. reflexivity.
  - destruct (dropdown_hover_and_tap demo_env (demo_state 800) 3
                (mkEvent 4 "")) as [_ H].
    + vm_compute. eexists. split; [reflexivity|]. vm_compute.
      repeat constructor.
    + destruct (H eq_refl 4) as (_ & H1 & H2 & H3);
        [vm_compute; reflexivity|].
      split; [exact H1|]. split; [exact H2|].
      etransitivity; [exact H3|]. vm_compute. reflexivity.
Defined.

(** C5. Resize handling keeps at most one animation-frame callback
    pending. In every state reachable from a freshly loaded page the
    number of pending callbacks is zero or one, and a resize event there
    ends normally with exactly one callback pending: a new one, whatever
    was pending before having been cancelled. *)
Theorem resize_keeps_one_pending doc bodyEl width counter canFocus env s :
  reachable (fresh_page doc bodyEl width counter canFocus) env s →
  (length (pendingFrames s) ≤ 1)%nat ∧
  let s' := exec handleResize s in
  completes handleResize s ∧
  ∃ h, pendingFrames s' = [h] ∧ (h ∉ pendingFrames s) ∧
       resizeTimeout s' = Some h.
Proof.
  intros Hr. apply reachable_invariant in Hr as (_ & Hd & _).
  split.
  - destruct Hd as [_ [->|(h & -> & _)]]; simpl; lia.
  - unfold completes, exec. rewrite handleResize_run by done. simpl.
    split; [by eexists|]. exists (S (frameCounter s)).
    split_and!; [done| |done].
    destruct Hd as [Hle _]. rewrite Forall_forall in Hle.
    intros Hin. apply Hle in Hin. lia.
Qed.

Lemma resize_keeps_one_pending_witness :
  let s := exec handleResize (demo_state 800) in
  (length (pendingFrames s) ≤ 1)%nat ∧
  ∃ h, pendingFrames (exec handleResize s) = [h] ∧ (h ∉ pendingFrames s).
Proof.
  intros s.
  destruct (resize_keeps_one_pending demo_doc (Some 0) 800 0
           (focusable_by_markup demo_doc) demo_env s)
    as (H1 & _ & h & H2 & H3 & _).
  - eapply reachable_step; [apply reachable_boot; vm_compute; reflexivity|].
    apply (step_listener demo_env (mkListener OnWindow "resize" Resize)
             (mkEvent 0 "")).
    + vm_compute. repeat constructor.
    + exact Logic.I.
  - split; [exact H1|]. exists h. split; [exact H2|exact H3].
Defined.

(** C6. The cached desktop flag is the comparison of the viewport width
    with the breakpoint 1024, when the module is loaded and after every
    run of [updateDesktopState]: each of the two ends normally, leaves
    the width of the viewport as it found it, and leaves the flag [true]
    exactly when that width is at least 1024. *)
Theorem isDesktop_is_width_against_breakpoint s :
  DESKTOP_BREAKPOINT = 1024%Z ∧
  (let s' := exec load s in
   completes load s ∧
   innerWidth s' = innerWidth s ∧
   isDesktop s' = bool_decide (1024 ≤ innerWidth s)%Z) ∧
  (let s' := exec updateDesktopState s in
   completes updateDesktopState s ∧
   innerWidth s' = innerWidth s ∧
   isDesktop s' = bool_decide (1024 ≤ innerWidth s)%Z).
Proof.
  split; [reflexivity|]. split.
  - unfold completes, exec. rewrite load_run. simpl.
    split; [by eexists|]. split; reflexivity.
  - unfold completes, exec, updateDesktopState, modify. simpl.
    split; [by eexists|]. split; reflexivity.
Qed.

(** C7, as amended. The selectors the script passes to [querySelector],
    [querySelectorAll] and [closest] are the four of the contract and
    [a:not([aria-haspopup])]: every query logged in a state reachable from
    a freshly loaded page uses one of the five, and on the sample page
    each of the five is used. *)
Theorem queries_use_five_selectors :
  (∀ doc bodyEl width counter canFocus env s,
     reachable (fresh_page doc bodyEl width counter canFocus) env s →
     log_within used_selectors s) ∧
  (∀ sel, sel ∈ used_selectors → ∃ m, (m, sel) ∈ queryLog (demo_state 800)).
Proof.
  split.
  - intros doc bodyEl width counter canFocus env s Hr.
    by apply reachable_invariant in Hr as (_ & _ & ?).
  - intros sel Hsel. unfold used_selectors, contract_selectors in Hsel.
    simpl in Hsel. rewrite !elem_of_cons in Hsel.
    destruct Hsel as [->|[->|[->|[->|[->|Hsel]]]]];
      [| | | | |by apply not_elem_of_nil in Hsel].
    + exists QuerySelector. vm_compute. repeat constructor.
    + exists QuerySelector. vm_compute. repeat constructor.
    + exists QuerySelectorAll. vm_compute. repeat constructor.
    + exists QuerySelector. vm_compute. repeat constructor.
    + exists QuerySelectorAll. vm_compute. repeat constructor.
Qed.

Lemma queries_use_five_selectors_witness :
  log_within used_selectors (demo_state 800).
Proof.
  apply (proj1 queries_use_five_selectors demo_doc (Some 0) 800%Z 0
           (focusable_by_markup demo_doc) demo_env).
  apply reachable_boot. vm_compute. reflexivity.
Defined.

(** C7 as stated fails: on the sample page [init] passes
    [a:not([aria-haspopup])], which is not one of the four selectors of
    the contract, to [querySelectorAll]. *)
Lemma contract_selectors_counterexample :
  reachable
    (fresh_page demo_doc (Some 0) 800 0 (focusable_by_markup demo_doc))
    demo_env (demo_state 800) ∧
  ((QuerySelectorAll, "a:not([aria-haspopup])") ∈ queryLog (demo_state 800)) ∧
  ("a:not([aria-haspopup])" ∉ contract_selectors) ∧
  ¬ log_within contract_selectors (demo_state 800).
Proof.
  assert (Hnot : "a:not([aria-haspopup])" ∉ contract_selectors).
  { unfold contract_selectors. rewrite !not_elem_of_cons.
    split_and!; try discriminate. apply not_elem_of_nil. }
  assert (Hin : (QuerySelectorAll, "a:not([aria-haspopup])")
                ∈ queryLog (demo_state 800)).
  { vm_compute. repeat constructor. }
  split_and!; [apply reachable_boot; vm_compute; reflexivity|done..|].
  intros Hlog. unfold log_within in Hlog. rewrite Forall_forall in Hlog.
  apply Hlog in Hin. done.
Qed.

(** C8, as amended. The three encodings of the menu state stay in step.
    On a page booted from a document whose body is attached, with the menu
    toggle, the menu and the body present, and the menu toggle not the
    toggle link of any dropdown: every listener, the frame callback and a
    change of viewport, run from a reachable state in which the toggle
    has [aria-expanded="true"] exactly when the menu has [is-active] and
    exactly when the body has [menu-open], end in such a state. *)
Theorem steps_keep_menu_synchronized doc bodyEl width counter canFocus env
    s s' t m b :
  attached doc bodyEl →
  reachable (fresh_page doc bodyEl width counter canFocus) env s →
  menuToggle env = Some t → navMenu env = Some m → body env = Some b →
  ¬ toggle_of (dom s) (navDropdowns env) t →
  step env s s' →
  synchronized (dom s) t m b → synchronized (dom s') t m b.
Proof.
  intros Hatt Hr Ht Hm Hb Hno Hstep.
  pose proof (reachable_cached _ _ _ _ _ _ _ Hatt Hr) as Hc.
  pose proof (reachable_invariant _ _ _ _ _ _ _ Hr) as (Hls & _ & _).
  apply (effect_synchronized env);
    eauto using cached_menuToggle_lt, cached_navMenu_lt, cached_body_lt.
  destruct Hstep as [l event s Hl Hdel|h s Hh|width' s].
  - apply run_effect; try done.
    rewrite Forall_forall in Hls. auto.
  - by apply (resizeCallback_effect env t m b Ht Hm Hb
                (set_frames (frameCounter s)
                   (filter (λ h', h' ≠ h) (pendingFrames s)) s)).
  - apply effect_none.
Qed.

Lemma steps_keep_menu_synchronized_witness :
  synchronized (dom (demo_open 800)) 1 2 0.
Proof.
  apply (steps_keep_menu_synchronized demo_doc (Some 0) 800 0
           (focusable_by_markup demo_doc) demo_env
           (demo_state 800) (demo_open 800) 1 2 0).
  - vm_compute. lia.
  - apply reachable_boot. vm_compute. reflexivity.
  - reflexivity.
  - reflexivity.
  - reflexivity.
  - unfold toggle_of. simpl. intros H.
    apply Exists_cons in H as [H|H]; [vm_compute in H; discriminate|].
    apply Exists_cons in H as [H|H]; [vm_compute in H; discriminate|].
    by apply Exists_nil in H.
  - apply (step_listener demo_env
             (mkListener (OnElement 1) "click" ToggleMobileMenu)
             (mkEvent 1 "") (demo_state 800)).
    + vm_compute. repeat constructor.
    + vm_compute. repeat constructor.
  - vm_compute. split; reflexivity.
Defined.

(** C8 as stated fails on a page whose menu toggle is the toggle link of
    a dropdown: with the menu open on desktop, the pointer leaving that
    dropdown sets the toggle's [aria-expanded] to "false" while the menu
    keeps [is-active] and the body keeps [menu-open]. *)
Lemma synchronized_counterexample :
  reachable
    (fresh_page shared_toggle_doc (Some 0) 1280 0
       (focusable_by_markup shared_toggle_doc)) shared_toggle_env
    shared_toggle_open ∧
  step shared_toggle_env shared_toggle_open shared_toggle_left ∧
  synchronized (dom shared_toggle_open) 3 1 0 ∧
  ¬ synchronized (dom shared_toggle_left) 3 1 0.
Proof.
  split_and!.
  - eapply reachable_step.
    + apply reachable_boot. vm_compute. reflexivity.
    + apply (step_listener shared_toggle_env
               (mkListener (OnElement 3) "click" ToggleMobileMenu)
               (mkEvent 3 "")).
      * vm_compute. repeat constructor.
      * vm_compute. repeat constructor.
  - apply (step_listener shared_toggle_env
             (mkListener (OnElement 2) "mouseleave" (DropdownMouseLeave 2))
             (mkEvent 2 "")).
    + vm_compute. repeat constructor.
    + vm_compute. repeat constructor.
  - vm_compute. split; reflexivity.
  - vm_compute. intros [H _]. discriminate.
Qed.

(** C9. On mobile the dropdowns exclude one another. After a click on a
    dropdown toggle ([toggleDropdown] for its dropdown [d]) at most one
    [.nav-dropdown] has [is-open]: every other one has lost it, and the
    toggle link of every other one has [aria-expanded="false"] unless it
    is also the toggle link of [d]. The same holds after an Enter or
    Space keydown on a dropdown toggle. The reason is the loop the
    function runs first: after it every dropdown other than [d] is
    closed. *)
Theorem mobile_dropdowns_exclusive env s event :
  cached env s → isDesktop s = false →
  (∀ d, let s' := exec (toggleDropdown env d event) s in
        at_most_one_open (dom s') ∧
        ∀ d', is_dropdown (dom s') d' → d' ≠ d →
              has_class (dom s') d' "is-open" = false ∧
              ∀ tg, dropdown_toggle (dom s') d' = Some tg →
                    dropdown_toggle (dom s') d ≠ Some tg →
                    attribute (dom s') tg "aria-expanded" = Some "false") ∧
  (∀ d0, is_dropdown (dom s) d0 →
         dropdown_toggle (dom s) d0 = Some (target event) →
         key event = "Enter" ∨ key event = " " →
         at_most_one_open (dom (exec (handleDropdownKeyboard env event) s))) ∧
  (∀ d, let s1 := exec (closeOtherDropdowns env d) s in
        ∀ d', is_dropdown (dom s1) d' → d' ≠ d → dropdown_closed (dom s1) d').
Proof.
  intros Hc Hmob.
  assert (Hall : ∀ d', is_dropdown (dom s) d' → d' ∈ navDropdowns env).
  { intros d'. by apply cached_navDropdowns. }
  split_and!.
  - intros d s'. unfold s', exec. rewrite toggleDropdown_mobile by done.
    simpl. split; [by apply tap_dropdown_at_most_one|].
    intros d' Hd' Hne.
    apply (is_dropdown_same _ (dom s)) in Hd'; [|apply skeleton_tap_dropdown].
    split; [apply tap_dropdown_others; auto|].
    intros tg.
    rewrite (dropdown_toggle_same _ (dom s) d'),
      (dropdown_toggle_same _ (dom s) d) by apply skeleton_tap_dropdown.
    intros Htg Hnd. eapply tap_dropdown_other_toggle; eauto.
  - intros d0 Hd0 Htg Hk.
    destruct (closest_exists (dom s) d0 (target event) (ByClass "nav-dropdown"))
      as (d & Hd & _); [done|by apply select_in_elem in Htg as [_ ?]|].
    rewrite (handleDropdownKeyboard_tap env event s d) by done.
    by apply tap_dropdown_at_most_one.
  - intros d s1 d' Hd' Hne. unfold s1, exec in *.
    rewrite closeOtherDropdowns_run in *. simpl in *.
    apply (is_dropdown_same _ (dom s)) in Hd';
      [|apply skeleton_close_dropdowns].
    apply close_dropdowns_closed. apply list_elem_of_filter. auto.
Qed.

Lemma mobile_dropdowns_exclusive_witness :
  at_most_one_open
    (dom (exec (toggleDropdown demo_env 5 (mkEvent 6 "")) demo_tapped)).
Proof.
  destruct (mobile_dropdowns_exclusive demo_env demo_tapped (mkEvent 6 ""))
    as (H & _ & _).
  - split; [vm_compute; reflexivity|vm_compute; lia].
  - vm_compute. reflexivity.
  - apply (H 5).
Defined.

(** C10. A keydown on the document whose key is Escape closes the mobile
    menu whatever its state and whatever [isDesktop]: with the menu toggle,
    the menu and the body present, the handler ends normally, the toggle
    has [aria-expanded="false"], the menu has lost [is-active], the body
    [menu-open], and every [.nav-dropdown] is closed. *)
Theorem escape_closes_menu env s event t m b :
  cached env s →
  menuToggle env = Some t → navMenu env = Some m → body env = Some b →
  key event = "Escape" →
  let s' := exec (handleEscapeKey env event) s in
  completes (handleEscapeKey env event) s ∧
  menu_closed (dom s') t m b ∧
  ∀ d, is_dropdown (dom s') d → dropdown_closed (dom s') d.
Proof.
  intros Hc Ht Hm Hb Hk. unfold handleEscapeKey.
  rewrite bool_decide_eq_true_2 by done.
  by apply closeMobileMenu_closes.
Qed.

Lemma escape_closes_menu_witness :
  let s' := exec (handleEscapeKey demo_env (mkEvent 4 "Escape"))
              (demo_open 1280) in
  menu_closed (dom s') 1 2 0 ∧
  ∀ d, is_dropdown (dom s') d → dropdown_closed (dom s') d.
Proof.
  intros s'.
  destruct (escape_closes_menu demo_env (demo_open 1280)
              (mkEvent 4 "Escape") 1 2 0) as (_ & H1 & H2).
  - split; [vm_compute; reflexivity|vm_compute; lia].
  - reflexivity.
  - reflexivity.
  - reflexivity.
  - reflexivity.
  - exact (conj H1 H2).
Defined.

(** ** Further properties of the script *)

(** X1. A click on the document closes the menu exactly when the menu has
    [is-active] and the click landed neither in the menu nor on the menu
    toggle: then the menu and every dropdown end closed; otherwise the
    state is left as it was. The handler ends normally either way. *)
Theorem click_outside_closes_menu env s event t m b :
  cached env s →
  menuToggle env = Some t → navMenu env = Some m → body env = Some b →
  let s' := exec (handleClickOutside env event) s in
  completes (handleClickOutside env event) s ∧
  (has_class (dom s) m "is-active" = true →
   ¬ contains (dom s) m (target event) →
   ¬ contains (dom s) t (target event) →
   menu_closed (dom s') t m b ∧
   ∀ d, is_dropdown (dom s') d → dropdown_closed (dom s') d) ∧
  (has_class (dom s) m "is-active" = false ∨
   contains (dom s) m (target event) ∨
   contains (dom s) t (target event) → s' = s).
Proof.
  intros Hc Ht Hm Hb s'. unfold s', completes, exec, handleClickOutside.
  rewrite Ht, Hm. run_script.
  destruct (closeMobileMenu_closes env s t m b Hc Ht Hm Hb)
    as ((u & Hu) & Hclosed).
  split_and!.
  - destruct (has_class (dom s) m "is-active" && _ && _); simpl;
      [by exists u|by eexists].
  - intros Hact Hnm Hnt. rewrite Hact.
    rewrite !bool_decide_eq_false_2 by done. simpl. exact Hclosed.
  - intros [Hact|[Hin|Hin]].
    + by rewrite Hact.
    + rewrite (bool_decide_eq_true_2 _ Hin). simpl.
      by rewrite andb_false_r.
    + rewrite (bool_decide_eq_true_2 (contains (dom s) t (target event)) Hin).
      simpl. by rewrite andb_false_r.
Qed.

Lemma click_outside_closes_menu_witness :
  let s' := exec (handleClickOutside demo_env (mkEvent 0 "")) (demo_open 800) in
  menu_closed (dom s') 1 2 0 ∧
  exec (handleClickOutside demo_env (mkEvent 8 "")) (demo_open 800)
  = demo_open 800.
Proof.
  intros s'. split.
  - destruct (click_outside_closes_menu demo_env (demo_open 800)
                (mkEvent 0 "") 1 2 0) as (_ & H & _).
    + split; [vm_compute; reflexivity|vm_compute; lia].
    + reflexivity.
    + reflexivity.
    + reflexivity.
    + apply H.
      * vm_compute. reflexivity.
      * vm_compute. intros H1. repeat (apply elem_of_cons in H1 as [H1|H1];
          [discriminate|]). by apply not_elem_of_nil in H1.
      * vm_compute. intros H1. repeat (apply elem_of_cons in H1 as [H1|H1];
          [discriminate|]). by apply not_elem_of_nil in H1.
  - destruct (click_outside_closes_menu demo_env (demo_open 800)
                (mkEvent 8 "") 1 2 0) as (_ & _ & H).
    + split; [vm_compute; reflexivity|vm_compute; lia].
    + reflexivity.
    + reflexivity.
    + reflexivity.
    + apply H. right. left. vm_compute. repeat constructor.
Defined.

(** X2. A click on a plain link of the menu closes the menu and every
    dropdown on mobile, and leaves the state as it was on desktop. *)
Theorem nav_link_click_closes_on_mobile env s t m b :
  cached env s →
  menuToggle env = Some t → navMenu env = Some m → body env = Some b →
  let s' := exec (navLinkClick env) s in
  completes (navLinkClick env) s ∧
  (isDesktop s = false →
   menu_closed (dom s') t m b ∧
   ∀ d, is_dropdown (dom s') d → dropdown_closed (dom s') d) ∧
  (isDesktop s = true → s' = s).
Proof.
  intros Hc Ht Hm Hb s'. unfold s', completes, exec, navLinkClick.
  run_script.
  destruct (closeMobileMenu_closes env s t m b Hc Ht Hm Hb)
    as ((u & Hu) & Hclosed).
  split_and!.
  - destruct (isDesktop s); simpl; [by eexists|by exists u].
  - intros ->. exact Hclosed.
  - by intros ->.
Qed.

Lemma nav_link_click_closes_on_mobile_witness :
  menu_closed (dom (exec (navLinkClick demo_env) (demo_open 800))) 1 2 0 ∧
  exec (navLinkClick demo_env) (demo_open 1280) = demo_open 1280.
Proof.
  split.
  - destruct (nav_link_click_closes_on_mobile demo_env (demo_open 800) 1 2 0)
      as (_ & H & _).
    + split; [vm_compute; reflexivity|vm_compute; lia].
    + reflexivity.
    + reflexivity.
    + reflexivity.
    + apply H. vm_compute. reflexivity.
  - destruct (nav_link_click_closes_on_mobile demo_env (demo_open 1280) 1 2 0)
      as (_ & _ & H).
    + split; [vm_compute; reflexivity|vm_compute; lia].
    + reflexivity.
    + reflexivity.
    + reflexivity.
    + apply H. vm_compute. reflexivity.
Defined.

Lemma closeMobileMenu_flags env x :
  preserves (λ s, flags s = x) (closeMobileMenu env).
Proof. unfold_handlers; unfold_dom_api; preserve; assumption. Qed.

(** X3. The animation-frame callback of a resize refreshes the cached
    flag from the current width. Below the breakpoint it ends normally
    and leaves the document as it was, whatever elements are missing; at
    or above it, with toggle, menu and body present, it ends normally
    with the menu and every dropdown closed. *)
Theorem frame_callback_refreshes_and_closes env s :
  let s' := exec (resizeCallback env) s in
  isDesktop s' = bool_decide (DESKTOP_BREAKPOINT ≤ innerWidth s)%Z ∧
  innerWidth s' = innerWidth s ∧
  ((innerWidth s < DESKTOP_BREAKPOINT)%Z →
   completes (resizeCallback env) s ∧ dom s' = dom s) ∧
  ((DESKTOP_BREAKPOINT ≤ innerWidth s)%Z →
   ∀ t m b, cached env s →
     menuToggle env = Some t → navMenu env = Some m → body env = Some b →
     completes (resizeCallback env) s ∧
     menu_closed (dom s') t m b ∧
     ∀ d, is_dropdown (dom s') d → dropdown_closed (dom s') d).
Proof.
  intros s'. unfold s', completes, exec, resizeCallback, updateDesktopState.
  run_script. simpl.
  set (s1 := set_isDesktop _ s).
  pose proof (closeMobileMenu_flags env (flags s1) s1 eq_refl) as Hflags.
  unfold flags, exec in Hflags. injection Hflags as Hdesk Hw _ _.
  destruct (bool_decide (DESKTOP_BREAKPOINT ≤ innerWidth s)%Z) eqn:E; simpl.
  - apply bool_decide_eq_true in E. split_and!; [done|done|lia|].
    intros _ t m b Hc Ht Hm Hb.
    assert (Hc1 : cached env s1).
    { eapply cached_same_markup; [| |exact Hc]; done. }
    exact (closeMobileMenu_closes env s1 t m b Hc1 Ht Hm Hb).
  - apply bool_decide_eq_false in E. split_and!; [done|done| |lia].
    intros _. split; [by eexists|done].
Qed.

Lemma frame_callback_refreshes_and_closes_witness :
  let s' := exec (resizeCallback demo_env)
              (set_innerWidth 1280 (demo_open 800)) in
  isDesktop s' = true ∧ menu_closed (dom s') 1 2 0.
Proof.
  intros s'.
  destruct (frame_callback_refreshes_and_closes demo_env
              (set_innerWidth 1280 (demo_open 800))) as (H1 & _ & _ & H2).
  destruct (H2 ltac:(vm_compute; discriminate) 1 2 0) as (_ & H3 & _).
  - split; [vm_compute; reflexivity|vm_compute; lia].
  - reflexivity.
  - reflexivity.
  - reflexivity.
  - split; [|exact H3]. etransitivity; [exact H1|]. vm_compute. reflexivity.
Defined.

Lemma registered_registered ls log ls' log' s :
  registered ls' log' (registered ls log s)
  = registered (ls ++ ls') (log ++ log') s.
Proof. unfold registered. simpl. by rewrite !app_assoc. Qed.

Lemma registered_id s : registered [] [] s = s.
Proof. destruct s. unfold registered. simpl. by rewrite !app_nil_r. Qed.

Lemma dropdown_loop_fold doc ds s :
  dom s = doc →
  foldl (λ s' d, registered (dropdown_listeners (dom s') d) [toggleQuery] s')
    s ds
  = registered (ds ≫= dropdown_listeners doc)
      (replicate (length ds) toggleQuery) s.
Proof.
  revert s. induction ds as [|d ds IH]; intros s Hs.
  - simpl. symmetry. apply registered_id.
  - cbn [foldl]. rewrite IH by (by rewrite <- Hs).
    rewrite registered_registered. by rewrite Hs.
Qed.

Lemma link_loop_fold links s :
  foldl (λ s' link,
           registered [mkListener (OnElement link) "click" NavLinkClick] [] s')
    s links
  = registered
      ((λ link, mkListener (OnElement link) "click" NavLinkClick) <$> links)
      [] s.
Proof.
  revert s. induction links as [|l links IH]; intros s.
  - simpl. symmetry. apply registered_id.
  - cbn [foldl]. rewrite IH. by rewrite registered_registered.
Qed.

Lemma bind_normal {A B} (m : Script A) (k : A → Script B) s a s1 :
  m s = (Normal a, s1) → (m ≫= k) s = k a s1.
Proof. intros H. unfold mbind, script_bind. by rewrite H. Qed.

Lemma addEventListener_run tgt ty h s :
  addEventListener tgt ty h s = (Normal (), registered [mkListener tgt ty h] [] s).
Proof.
  unfold addEventListener, modify, registered. destruct s; simpl.
  by rewrite app_nil_r.
Qed.

Lemma querySelectorAllIn_run root sel s :
  querySelectorAllIn root sel s =
  (Normal (select_all_in (dom s) root sel),
   registered [] [(QuerySelectorAll, selector_text sel)] s).
Proof.
  unfold querySelectorAllIn, logQuery, registered. run_script.
  destruct s; simpl. by rewrite app_nil_r.
Qed.

Lemma querySelectorIn_run root sel s :
  querySelectorIn root sel s =
  (Normal (select_in (dom s) root sel),
   registered [] [(QuerySelector, selector_text sel)] s).
Proof.
  unfold querySelectorIn, logQuery, registered. run_script.
  destruct s; simpl. by rewrite app_nil_r.
Qed.

Lemma dom_registered ls log s : dom (registered ls log s) = dom s.
Proof. done. Qed.

(** [init] on a page with a menu, as one write. *)
Lemma init_run env s m :
  navMenu env = Some m →
  init env s =
  (Normal (),
   registered (wired_listeners env (dom s) m)
     (toggleQueries env ++ [(QuerySelectorAll, "a:not([aria-haspopup])")]) s).
Proof.
  intros Hm. unfold init. rewrite Hm.
  erewrite bind_normal; cycle 1.
  { instantiate (1 := registered
               match menuToggle env with
               | Some t => [mkListener (OnElement t) "click" ToggleMobileMenu]
               | None => []
               end [] s).
    instantiate (1 := ()).
    destruct (menuToggle env); unfold whenPresent.
    - apply addEventListener_run.
    - by rewrite registered_id. }
  erewrite bind_normal; cycle 1.
  { apply (forEach_run _
      (λ d s', registered (dropdown_listeners (dom s') d) [toggleQuery] s')).
    intros d s'. erewrite bind_normal by apply querySelectorIn_run.
    unfold dropdown_listeners. rewrite ?dom_registered.
    destruct (select_in (dom s') d dropdownToggleSelector) as [t|];
      unfold whenPresent, mbind, script_bind, mret, script_ret;
      repeat (rewrite addEventListener_run; cbn beta iota);
      rewrite !registered_registered; reflexivity. }
  rewrite (dropdown_loop_fold (dom s)) by done.
  rewrite registered_registered.
  erewrite bind_normal by reflexivity.
  erewrite bind_normal by apply querySelectorAllIn_run.
  rewrite ?dom_registered.
  erewrite bind_normal; cycle 1.
  { apply (forEach_run _
      (λ link s', registered
         [mkListener (OnElement link) "click" NavLinkClick] [] s')).
    intros l s'. apply addEventListener_run. }
  rewrite link_loop_fold.
  repeat (erewrite bind_normal by apply addEventListener_run).
  rewrite addEventListener_run, !registered_registered.
  unfold wired_listeners, toggleQueries, plainLinkSelector.
  rewrite ?app_nil_r, <- ?app_assoc. reflexivity.
Qed.

Lemma elem_of_dropdown_listeners doc d l :
  l ∈ dropdown_listeners doc d ↔
  (∃ t, select_in doc d dropdownToggleSelector = Some t ∧
        (l = mkListener (OnElement t) "click" (DropdownClick d) ∨
         l = mkListener (OnElement t) "keydown" DropdownKeyboard)) ∨
  l = mkListener (OnElement d) "mouseenter" (DropdownMouseEnter d) ∨
  l = mkListener (OnElement d) "mouseleave" (DropdownMouseLeave d).
Proof.
  unfold dropdown_listeners.
  destruct (select_in doc d dropdownToggleSelector) as [t|];
    rewrite elem_of_app, !elem_of_cons, !elem_of_nil; naive_solver.
Qed.

Lemma elem_of_wired_listeners env doc m l :
  l ∈ wired_listeners env doc m ↔
  (∃ t, menuToggle env = Some t ∧
        l = mkListener (OnElement t) "click" ToggleMobileMenu) ∨
  (∃ d, d ∈ navDropdowns env ∧ l ∈ dropdown_listeners doc d) ∨
  (∃ i, i ∈ select_all_in doc m plainLinkSelector ∧
        l = mkListener (OnElement i) "click" NavLinkClick) ∨
  l = mkListener OnDocument "click" ClickOutside ∨
  l = mkListener OnWindow "resize" Resize ∨
  l = mkListener OnDocument "keydown" EscapeKey.
Proof.
  unfold wired_listeners.
  rewrite !elem_of_app, list_elem_of_bind, list_elem_of_fmap,
    !elem_of_cons, elem_of_nil.
  destruct (menuToggle env) as [t|];
    rewrite ?list_elem_of_singleton, ?elem_of_nil; naive_solver.
Qed.

(** A toggle link of a dropdown is not a plain link. *)
Lemma toggle_not_plain_link doc d m i :
  select_in doc d dropdownToggleSelector = Some i →
  i ∉ select_all_in doc m plainLinkSelector.
Proof.
  intros Hi Hin. apply select_in_elem in Hi as [Hi _].
  apply select_all_matches in Hi as (e & He & _ & Hsome).
  unfold select_all_in in Hin. apply list_elem_of_filter in Hin as [_ Hin].
  apply select_all_matches in Hin as (e' & He' & _ & Hnone).
  rewrite He in He'. injection He' as <-. rewrite Hnone in Hsome.
  by destruct Hsome.
Qed.

(** X4. What [init] wires on a page that has a menu, from a state with no
    listener yet. It ends normally and leaves the document alone. The
    click listener that closes the menu sits on exactly the [a] elements
    inside the menu that have no [aria-haspopup], so never on the toggle
    link of a dropdown. The tap listener of a dropdown sits on exactly
    that dropdown's toggle link, and a dropdown without one gets none.
    Every dropdown gets its two hover listeners, the menu toggle its
    click listener, and the document and the window their three. *)
Theorem init_wires_page env s m :
  navMenu env = Some m → listeners s = [] →
  let s' := exec (init env) s in
  completes (init env) s ∧ dom s' = dom s ∧
  (∀ tgt ty,
     mkListener tgt ty NavLinkClick ∈ listeners s' ↔
     ∃ i, tgt = OnElement i ∧ ty = "click" ∧
          i ∈ select_all_in (dom s) m plainLinkSelector) ∧
  (∀ d i, dropdown_toggle (dom s) d = Some i →
          mkListener (OnElement i) "click" NavLinkClick ∉ listeners s') ∧
  (∀ tgt ty d,
     mkListener tgt ty (DropdownClick d) ∈ listeners s' ↔
     ∃ i, tgt = OnElement i ∧ ty = "click" ∧ d ∈ navDropdowns env ∧
          dropdown_toggle (dom s) d = Some i) ∧
  (∀ d, d ∈ navDropdowns env →
        mkListener (OnElement d) "mouseenter" (DropdownMouseEnter d)
          ∈ listeners s' ∧
        mkListener (OnElement d) "mouseleave" (DropdownMouseLeave d)
          ∈ listeners s') ∧
  (∀ t, menuToggle env = Some t →
        mkListener (OnElement t) "click" ToggleMobileMenu ∈ listeners s') ∧
  mkListener OnDocument "click" ClickOutside ∈ listeners s' ∧
  mkListener OnWindow "resize" Resize ∈ listeners s' ∧
  mkListener OnDocument "keydown" EscapeKey ∈ listeners s'.
Proof.
  intros Hm Hnil s'. unfold s', completes, exec.
  rewrite (init_run env s m Hm). simpl. rewrite Hnil. simpl.
  split_and!; try (by eexists); try done.
  - intros tgt ty. rewrite elem_of_wired_listeners. split.
    + intros [(t & _ & [=])|[(d & _ & Hd)|[(i & Hi & [= -> ->])|H]]].
      * apply elem_of_dropdown_listeners in Hd.
        destruct Hd as [(t & _ & [[=]|[=]])|[[=]|[=]]].
      * by exists i.
      * destruct H as [[=]|[[=]|[=]]].
    + intros (i & -> & -> & Hi). right. right. left. by exists i.
  - intros d i Hi. rewrite elem_of_wired_listeners.
    intros [(t & _ & [=])|[(d' & _ & Hd)|[(j & Hj & [= ->])|H]]].
    + apply elem_of_dropdown_listeners in Hd.
      destruct Hd as [(t & _ & [[=]|[=]])|[[=]|[=]]].
    + by eapply toggle_not_plain_link.
    + destruct H as [[=]|[[=]|[=]]].
  - intros tgt ty d. rewrite elem_of_wired_listeners. split.
    + intros [(t & _ & [=])|[(d' & Hin & Hd)|[(j & Hj & [=])|H]]].
      * apply elem_of_dropdown_listeners in Hd.
        destruct Hd as [(t & Ht & [[= -> -> ->]|[=]])|[[=]|[=]]].
        by exists t.
      * destruct H as [[=]|[[=]|[=]]].
    + intros (i & -> & -> & Hin & Hi). right. left. exists d.
      split; [done|]. apply elem_of_dropdown_listeners. left. exists i. auto.
  - intros d Hd. split; apply elem_of_wired_listeners; right; left;
      exists d; (split; [done|]); apply elem_of_dropdown_listeners; auto.
  - intros t Ht. apply elem_of_wired_listeners. left. by exists t.
  - apply elem_of_wired_listeners. auto 10.
  - apply elem_of_wired_listeners. auto 10.
  - apply elem_of_wired_listeners. auto 10.
Qed.

Lemma init_wires_page_witness :
  mkListener (OnElement 8) "click" NavLinkClick ∈ listeners (demo_state 800) ∧
  mkListener (OnElement 4) "click" NavLinkClick ∉ listeners (demo_state 800).
Proof.
  destruct (init_wires_page demo_env
              (exec load
                 (fresh_page demo_doc (Some 0) 800 0
                    (focusable_by_markup demo_doc))) 2)
    as (_ & _ & H1 & H2 & _).
  - reflexivity.
  - vm_compute. reflexivity.
  - split.
    + apply H1. exists 8. split_and!; [done..|]. vm_compute. repeat constructor.
    + apply (H2 3). vm_compute. reflexivity.
Defined.

(** X5. When the functions end normally. [init] does exactly when there
    is a menu; [closeMobileMenu] and [toggleMobileMenu] exactly when the
    menu toggle, the menu and the body are all there; [toggleDropdown]
    exactly on desktop or when the dropdown has a toggle link. The hover
    listeners, [handleResize] and the module's top level always do. *)
Theorem completion_conditions env s :
  (completes (init env) s ↔ is_Some (navMenu env)) ∧
  (completes (closeMobileMenu env) s ↔
   is_Some (menuToggle env) ∧ is_Some (navMenu env) ∧ is_Some (body env)) ∧
  (completes (toggleMobileMenu env) s ↔
   is_Some (menuToggle env) ∧ is_Some (navMenu env) ∧ is_Some (body env)) ∧
  (∀ d event,
     completes (toggleDropdown env d event) s ↔
     isDesktop s = true ∨ is_Some (dropdown_toggle (dom s) d)) ∧
  (∀ d, completes (dropdownMouseEnter d) s ∧
        completes (dropdownMouseLeave d) s) ∧
  completes handleResize s ∧
  completes load s.
Proof.
  unfold completes. split_and!.
  - destruct (navMenu env) as [m|] eqn:Hm.
    + rewrite (init_run env s m Hm). split; [by eexists|by eexists].
    + rewrite init_raises_without_menu by done.
      split; [by intros [? [=]]|by intros [? [=]]].
  - destruct (menuToggle env) as [t|] eqn:Ht, (navMenu env) as [m|] eqn:Hm,
      (body env) as [b|] eqn:Hb.
    1: { rewrite (closeMobileMenu_run env t m b) by done.
         split; [by eauto|by eexists]. }
    all: unfold closeMobileMenu; rewrite Ht, ?Hm, ?Hb; simpl;
      split; [intros [? [=]]|intros (H1 & H2 & H3);
        by first [destruct H1|destruct H2|destruct H3]].
  - destruct (menuToggle env) as [t|] eqn:Ht, (navMenu env) as [m|] eqn:Hm,
      (body env) as [b|] eqn:Hb.
    1: { rewrite (toggleMobileMenu_run env t m b) by done.
         split; [by eauto|by eexists]. }
    all: unfold toggleMobileMenu; rewrite Ht, ?Hm, ?Hb; simpl;
      split; [intros [? [=]]|intros (H1 & H2 & H3);
        by first [destruct H1|destruct H2|destruct H3]].
  - intros d event. destruct (isDesktop s) eqn:Hd.
    + rewrite toggleDropdown_desktop by done. split; [auto|by eexists].
    + rewrite toggleDropdown_mobile by done. simpl.
      destruct (dropdown_toggle (dom s) d) as [tg|]; simpl.
      * split; [by eauto|by eexists].
      * split; [intros [? [=]]|intros [[=]|[? [=]]]].
  - intros d. rewrite dropdownMouseEnter_run, dropdownMouseLeave_run.
    split; by eexists.
  - unfold handleResize, requestAnimationFrame, cancelAnimationFrame.
    run_script. destruct (resizeTimeout s) as [[|h]|]; by eexists.
  - rewrite load_run. by eexists.
Qed.

Lemma closestTo_run start sel s :
  closestTo start sel s =
  (Normal (closest (dom s) start sel),
   set_queryLog (queryLog s ++ [(Closest, selector_text sel)]) s).
Proof. unfold closestTo, logQuery. by run_script. Qed.

(** [handleDropdownKeyboard] for an Escape inside dropdown [d]. *)
Lemma handleDropdownKeyboard_escape env event s d :
  closest (dom s) (target event) (ByClass "nav-dropdown") = Some d →
  key event = "Escape" →
  handleDropdownKeyboard env event s =
  (Normal (),
   set_activeElement
     (match dropdown_toggle (dom s) d with
      | Some tg => if focusable s tg then Some tg else activeElement s
      | None => activeElement s
      end)
     (updated (close_dropdown d (dom s))
        [(Closest, ".nav-dropdown"); toggleQuery] s)).
Proof.
  intros Hc Hk. unfold handleDropdownKeyboard.
  erewrite bind_normal by apply closestTo_run. rewrite Hc, Hk.
  unfold whenPresent. run_script. simpl.
  unfold close_dropdown, dropdown_toggle.
  rewrite <- (select_in_remove_class d "is-open" (dom s) d
                dropdownToggleSelector)
    by auto with markup.
  destruct (select_in (remove_class d "is-open" (dom s)) d
              dropdownToggleSelector) as [tg|];
    simpl; [destruct (focusable s tg)|];
    unfold updated, set_activeElement, set_queryLog, set_dom; simpl;
    rewrite <- ?app_assoc; reflexivity.
Qed.

(** X6. Escape on a dropdown toggle closes that dropdown only and asks
    for the focus to go back to its toggle link, on mobile and on desktop
    alike: the handler ends normally, the dropdown is closed, no other
    element loses or gains [is-open], the default is not prevented, and
    the focus is on the toggle link when the browser lets that link take
    focus; it stays where it was when the link is not focusable (a link
    without [href] or [tabindex], say) or the dropdown has no toggle
    link. *)
Theorem keyboard_escape_closes_dropdown env s event d :
  closest (dom s) (target event) (ByClass "nav-dropdown") = Some d →
  key event = "Escape" →
  let s' := exec (handleDropdownKeyboard env event) s in
  completes (handleDropdownKeyboard env event) s ∧
  dropdown_closed (dom s') d ∧
  (∀ i, i ≠ d → has_class (dom s') i "is-open" = has_class (dom s) i "is-open") ∧
  (∀ tg, dropdown_toggle (dom s) d = Some tg →
         activeElement s' =
         if focusable s tg then Some tg else activeElement s) ∧
  (dropdown_toggle (dom s) d = None → activeElement s' = activeElement s) ∧
  defaultPrevented s' = defaultPrevented s ∧
  isDesktop s' = isDesktop s.
Proof.
  intros Hc Hk s'. unfold s', completes, exec.
  rewrite (handleDropdownKeyboard_escape env event s d Hc Hk). simpl.
  split_and!; try done.
  - by eexists.
  - apply close_dropdown_closed.
  - intros i Hi. rewrite has_class_close_dropdown.
    rewrite bool_decide_eq_false_2 by naive_solver. apply andb_true_r.
  - by intros tg ->.
  - by intros ->.
Qed.

Lemma keyboard_escape_closes_dropdown_witness :
  (let s' := exec (handleDropdownKeyboard demo_env (mkEvent 4 "Escape"))
               linked_tapped in
   dropdown_closed (dom s') 3 ∧ activeElement s' = Some 4) ∧
  (let s' := exec (handleDropdownKeyboard demo_env (mkEvent 4 "Escape"))
               demo_tapped in
   dropdown_closed (dom s') 3 ∧ activeElement s' = None).
Proof.
  pose proof (keyboard_escape_closes_dropdown demo_env linked_tapped
                (mkEvent 4 "Escape") 3) as H.
  pose proof (keyboard_escape_closes_dropdown demo_env demo_tapped
                (mkEvent 4 "Escape") 3) as H'.
  cbv zeta in H, H' |- *.
  assert (C : closest (dom linked_tapped) 4 (ByClass "nav-dropdown") = Some 3)
    by (vm_compute; reflexivity).
  assert (C' : closest (dom demo_tapped) 4 (ByClass "nav-dropdown") = Some 3)
    by (vm_compute; reflexivity).
  assert (T : dropdown_toggle (dom linked_tapped) 3 = Some 4)
    by (vm_compute; reflexivity).
  assert (T' : dropdown_toggle (dom demo_tapped) 3 = Some 4)
    by (vm_compute; reflexivity).
  assert (F : (if focusable linked_tapped 4 then Some 4
               else activeElement linked_tapped) = Some 4)
    by (vm_compute; reflexivity).
  assert (F' : (if focusable demo_tapped 4 then Some 4
                else activeElement demo_tapped) = None)
    by (vm_compute; reflexivity).
  destruct (H C eq_refl) as (_ & H1 & _ & H2 & _).
  destruct (H' C' eq_refl) as (_ & H1' & _ & H2' & _).
  exact (conj (conj H1 (eq_trans (H2 4 T) F))
              (conj H1' (eq_trans (H2' 4 T') F'))).
Defined.

(** X7. The keyboard listener acts on two occasions only. A keydown whose
    target is in no dropdown, or whose key is not Escape and either the
    page is on desktop or the key is neither Enter nor Space, leaves the
    state as it was (the log of queries aside): in particular Enter on
    desktop does not prevent the default, so the link is followed. *)
Theorem keyboard_otherwise_idle env s event :
  closest (dom s) (target event) (ByClass "nav-dropdown") = None ∨
  (key event ≠ "Escape" ∧
   (isDesktop s = true ∨ (key event ≠ "Enter" ∧ key event ≠ " "))) →
  let s' := exec (handleDropdownKeyboard env event) s in
  completes (handleDropdownKeyboard env event) s ∧ same_but_log s s'.
Proof.
  intros H s'. unfold s', completes, exec, handleDropdownKeyboard.
  erewrite bind_normal by apply closestTo_run.
  destruct (closest (dom s) (target event) (ByClass "nav-dropdown"))
    as [d|] eqn:Hc; unfold whenPresent.
  2: { split; [by eexists|by destruct s]. }
  destruct H as [[=]|[Hesc Hrest]].
  rewrite (bool_decide_eq_false_2 (key event = "Escape")) by done.
  set (s1 := set_queryLog _ s).
  destruct Hrest as [Hdesk|[He Hs]].
  - destruct (bool_decide (key event = "Enter") || bool_decide (key event = " "));
      run_script; simpl.
    + change (isDesktop s1) with (isDesktop s). rewrite Hdesk. simpl.
      split; [by eexists|by destruct s].
    + split; [by eexists|by destruct s].
  - rewrite !bool_decide_eq_false_2 by done. run_script. simpl.
    split; [by eexists|by destruct s].
Qed.

Lemma keyboard_otherwise_idle_witness :
  same_but_log (demo_state 1280)
    (exec (handleDropdownKeyboard demo_env (mkEvent 4 "Enter"))
       (demo_state 1280)).
Proof.
  destruct (keyboard_otherwise_idle demo_env (demo_state 1280)
              (mkEvent 4 "Enter")) as [_ H].
  - right. split; [discriminate|]. left. vm_compute. reflexivity.
  - exact H.
Defined.

(** X8. Hover is a desktop affair and concerns one dropdown. On mobile
    mouseenter and mouseleave leave the state as it was. On desktop they
    write nothing but the [is-open] class of the hovered dropdown and the
    [aria-expanded] of its toggle link, and moving the pointer in and out
    leaves the dropdown closed. *)
Theorem hover_is_local d s :
  let entered := exec (dropdownMouseEnter d) s in
  let left := exec (dropdownMouseLeave d) s in
  (isDesktop s = false → entered = s ∧ left = s) ∧
  (∀ i c, i ≠ d ∨ c ≠ "is-open" →
     has_class (dom entered) i c = has_class (dom s) i c ∧
     has_class (dom left) i c = has_class (dom s) i c) ∧
  (∀ i a, dropdown_toggle (dom s) d ≠ Some i ∨ a ≠ "aria-expanded" →
     attribute (dom entered) i a = attribute (dom s) i a ∧
     attribute (dom left) i a = attribute (dom s) i a) ∧
  (isDesktop s = true →
   dropdown_closed (dom (exec (dropdownMouseLeave d) entered)) d).
Proof.
  intros entered left. unfold entered, left, exec.
  rewrite dropdownMouseEnter_run, dropdownMouseLeave_run. simpl.
  split_and!.
  - by intros ->.
  - intros i c Hic. destruct (isDesktop s); simpl; [|done].
    unfold open_dropdown.
    rewrite has_class_close_dropdown.
    rewrite (bool_decide_eq_false_2 (d = i ∧ _)) by naive_solver.
    rewrite andb_true_r. split; [|done].
    destruct (select_in _ _ _); rewrite ?has_class_set_attribute;
      rewrite has_class_add, bool_decide_eq_false_2 by naive_solver;
      apply orb_false_r.
  - intros i a Hia. destruct (isDesktop s); simpl; [|done].
    rewrite attribute_close_dropdown.
    rewrite bool_decide_eq_false_2 by (unfold dropdown_toggle in Hia; naive_solver).
    split; [|done].
    unfold open_dropdown.
    destruct (select_in (add_class d "is-open" (dom s)) d
                dropdownToggleSelector) as [tg|] eqn:E;
      [|apply attribute_add_class].
    rewrite attribute_set_attribute, bool_decide_eq_false_2;
      [apply attribute_add_class|].
    intros (-> & <- & _).
    destruct Hia as [Hia|Hia]; [|done]. apply Hia.
    rewrite <- E. apply dropdown_toggle_same. symmetry. auto with markup.
  - intros Hd. rewrite Hd, dropdownMouseLeave_run. simpl. rewrite Hd.
    apply close_dropdown_closed.
Qed.

Lemma hover_is_local_witness :
  exec (dropdownMouseEnter 3) (demo_state 800) = demo_state 800 ∧
  dropdown_closed
    (dom (exec (dropdownMouseLeave 3)
            (exec (dropdownMouseEnter 3) (demo_state 1280)))) 3.
Proof.
  pose proof (hover_is_local 3 (demo_state 800)) as H1.
  pose proof (hover_is_local 3 (demo_state 1280)) as H2.
  cbv zeta in H1, H2.
  destruct H1 as (H1 & _). destruct H2 as (_ & _ & _ & H2).
  assert (M : isDesktop (demo_state 800) = false) by (vm_compute; reflexivity).
  assert (D : isDesktop (demo_state 1280) = true) by (vm_compute; reflexivity).
  exact (conj (proj1 (H1 M)) (H2 D)).
Defined.

(** X9. Two taps on the same dropdown toggle on mobile bring the dropdown
    back: its [is-open] class is as before the first tap, its toggle's
    [aria-expanded] says so, both taps end normally, and every other
    cached dropdown is without [is-open]. *)
Theorem tap_twice_restores env s d event tg :
  isDesktop s = false → d < length (dom s) →
  dropdown_toggle (dom s) d = Some tg →
  let s1 := exec (toggleDropdown env d event) s in
  let s2 := exec (toggleDropdown env d event) s1 in
  completes (toggleDropdown env d event) s ∧
  completes (toggleDropdown env d event) s1 ∧
  has_class (dom s2) d "is-open" = has_class (dom s) d "is-open" ∧
  attribute (dom s2) tg "aria-expanded" =
    Some (string_of_bool (has_class (dom s) d "is-open")) ∧
  ∀ d', d' ∈ navDropdowns env → d' ≠ d →
        has_class (dom s2) d' "is-open" = false.
Proof.
  intros Hmob Hd Htg s1 s2.
  assert (Hs1 : toggleDropdown env d event s = (Normal (), s1)).
  { unfold s1, exec. rewrite toggleDropdown_mobile by done. simpl.
    by rewrite Htg. }
  assert (Hdom1 : dom s1 = tap_dropdown (navDropdowns env) d (dom s)).
  { unfold s1, exec. by rewrite toggleDropdown_mobile. }
  assert (Hmob1 : isDesktop s1 = false).
  { unfold s1, exec. by rewrite toggleDropdown_mobile. }
  assert (Htg1 : dropdown_toggle (dom s1) d = Some tg).
  { rewrite Hdom1, <- Htg. apply dropdown_toggle_same, skeleton_tap_dropdown. }
  assert (Hd1 : d < length (dom s1)).
  { rewrite Hdom1.
    by rewrite (skeleton_eq_length _ _ (skeleton_tap_dropdown _ d (dom s))). }
  unfold completes, s2, exec.
  rewrite Hs1. rewrite (toggleDropdown_mobile env d event s1) by done.
  simpl. rewrite Htg1.
  split_and!; [by eexists|by eexists| | |].
  - rewrite tap_dropdown_flips by done. rewrite Hdom1.
    rewrite tap_dropdown_flips by done. apply negb_involutive.
  - rewrite (tap_dropdown_toggle _ _ _ tg) by done. rewrite Hdom1.
    rewrite tap_dropdown_flips by done. by rewrite negb_involutive.
  - intros d' Hin Hne. by apply tap_dropdown_others.
Qed.

Lemma tap_twice_restores_witness :
  let tap := toggleDropdown demo_env 3 (mkEvent 4 "") in
  has_class (dom (exec tap (exec tap (demo_state 800)))) 3 "is-open" =
  has_class (dom (demo_state 800)) 3 "is-open".
Proof.
  pose proof (tap_twice_restores demo_env (demo_state 800) 3 (mkEvent 4 "") 4)
    as H.
  cbv zeta in H |- *.
  assert (M : isDesktop (demo_state 800) = false) by (vm_compute; reflexivity).
  assert (L : 3 < length (dom (demo_state 800))) by (vm_compute; lia).
  assert (T : dropdown_toggle (dom (demo_state 800)) 3 = Some 4)
    by (vm_compute; reflexivity).
  exact (proj1 (proj2 (proj2 (H M L T)))).
Defined.

Lemma menu_toggled_doc_length t m b o doc :
  length (menu_toggled_doc t m b o doc) = length doc.
Proof. apply skeleton_eq_length, skeleton_menu_toggled_doc. Qed.

Lemma expanded_true doc t :
  attribute doc t "aria-expanded" = Some "true" → expanded doc t = true.
Proof. intros H. unfold expanded. by rewrite H. Qed.

Lemma expanded_false doc t :
  attribute doc t "aria-expanded" = Some "false" → expanded doc t = false.
Proof. intros H. unfold expanded. by rewrite H. Qed.

(** X10. Two clicks on the menu toggle bring the menu back. From a state
    in which the three encodings agree, after two clicks the toggle says
    expanded exactly when it did, the menu has [is-active] and the body
    [menu-open] exactly when they had, and, one of the two clicks having
    closed the menu, no cached dropdown has [is-open]. *)
Theorem toggle_twice_restores env s t m b :
  cached env s →
  menuToggle env = Some t → navMenu env = Some m → body env = Some b →
  synchronized (dom s) t m b →
  let s2 := exec (toggleMobileMenu env) (exec (toggleMobileMenu env) s) in
  expanded (dom s2) t = expanded (dom s) t ∧
  has_class (dom s2) m "is-active" = has_class (dom s) m "is-active" ∧
  has_class (dom s2) b "menu-open" = has_class (dom s) b "menu-open" ∧
  ∀ d, d ∈ navDropdowns env → has_class (dom s2) d "is-open" = false.
Proof.
  intros Hc Ht Hm Hb [Hs1 Hs2] s2.
  pose proof (cached_menuToggle_lt _ _ Hc _ Ht) as Lt.
  pose proof (cached_navMenu_lt _ _ Hc _ Hm) as Lm.
  pose proof (cached_body_lt _ _ Hc _ Hb) as Lb.
  unfold s2, exec.
  rewrite (toggleMobileMenu_run env t m b Ht Hm Hb s).
  fold (expanded (dom s) t).
  destruct (expanded (dom s) t) eqn:E; simpl.
  - (* open, closed, open again *)
    destruct (menu_toggled_doc_state t m b true (dom s)) as (Ha & Hm' & Hb');
      [done..|].
    rewrite <- Hs1 in Hm'. rewrite <- Hs2, <- Hs1 in Hb'. simpl in *.
    set (doc1 := close_dropdowns (navDropdowns env)
                   (menu_toggled_doc t m b true (dom s))).
    assert (Hclosed : menu_closed doc1 t m b).
    { unfold doc1. split_and!;
        auto using attribute_close_dropdowns_false,
          has_class_close_dropdowns_false. }
    destruct Hclosed as (Ca & Cm & Cb).
    rewrite (toggleMobileMenu_run env t m b Ht Hm Hb). simpl.
    fold doc1. rewrite (bool_decide_eq_false_2 (attribute doc1 t _ = _))
      by (rewrite Ca; discriminate).
    simpl.
    assert (L1 : length doc1 = length (dom s)).
    { unfold doc1. by rewrite close_dropdowns_length, menu_toggled_doc_length. }
    destruct (menu_toggled_doc_state t m b false doc1) as (Ha2 & Hm2 & Hb2);
      [by rewrite L1..|].
    rewrite Cm in Hm2. rewrite Cb in Hb2. simpl in *.
    rewrite (expanded_true _ _ Ha2), Hm2, Hb2, <- Hs2, <- Hs1.
    split_and!; [done..|].
    intros d Hd. rewrite menu_toggled_doc_is_open.
    by apply close_dropdowns_closed.
  - (* closed, open, closed again *)
    destruct (menu_toggled_doc_state t m b false (dom s)) as (Ha & Hm' & Hb');
      [done..|].
    rewrite <- Hs1 in Hm'. rewrite <- Hs2, <- Hs1 in Hb'. simpl in *.
    set (doc1 := menu_toggled_doc t m b false (dom s)).
    rewrite (toggleMobileMenu_run env t m b Ht Hm Hb). simpl.
    fold doc1. rewrite (bool_decide_eq_true_2 (attribute doc1 t _ = _)) by done.
    simpl.
    assert (L1 : length doc1 = length (dom s)) by apply menu_toggled_doc_length.
    destruct (menu_toggled_doc_state t m b true doc1) as (Ha2 & Hm2 & Hb2);
      [by rewrite L1..|].
    fold doc1 in Hm', Hb'. rewrite Hm' in Hm2. rewrite Hb' in Hb2.
    simpl in *.
    rewrite (expanded_false _ t
               (attribute_close_dropdowns_false _ _ _ Ha2)).
    rewrite !has_class_close_dropdowns_false by done.
    rewrite <- Hs2, <- Hs1.
    split_and!; [done..|].
    intros d Hd. by apply close_dropdowns_closed.
Qed.

Lemma toggle_twice_restores_witness :
  let click := toggleMobileMenu demo_env in
  has_class (dom (exec click (exec click (demo_state 800)))) 2 "is-active" =
  has_class (dom (demo_state 800)) 2 "is-active".
Proof.
  pose proof (toggle_twice_restores demo_env (demo_state 800) 1 2 0) as H.
  cbv zeta in H |- *.
  assert (C : cached demo_env (demo_state 800))
    by (split; [vm_compute; reflexivity|vm_compute; lia]).
  assert (S : synchronized (dom (demo_state 800)) 1 2 0)
    by (vm_compute; split; reflexivity).
  exact (proj1 (proj2 (H C eq_refl eq_refl eq_refl S))).
Defined.

(** Writes that change nothing. *)

Lemma alter_fixed (f : Element → Element) i (doc : Document) :
  (∀ e, doc !! i = Some e → f e = e) → alter f i doc = doc.
Proof.
  intros H. apply list_eq. intros j. rewrite list_lookup_alter.
  destruct (decide (i = j)) as [->|]; [|done].
  destruct (doc !! j) as [e|] eqn:E; simpl; [|done]. by rewrite H.
Qed.

Lemma remove_class_absent i c doc :
  has_class doc i c = false → remove_class i c doc = doc.
Proof.
  intros H. apply alter_fixed. intros e He.
  unfold has_class in H. rewrite He in H.
  apply bool_decide_eq_false in H.
  destruct e as [tg p cs at']. unfold with_classes. simpl in *.
  f_equal. set_solver.
Qed.

Lemma set_attribute_same i a v doc :
  attribute doc i a = Some v → set_attribute i a v doc = doc.
Proof.
  intros H. apply alter_fixed. intros e He.
  unfold attribute in H. rewrite He in H. simpl in H.
  destruct e as [tg p cs at']. unfold with_attribute. simpl in *.
  f_equal. by apply insert_id.
Qed.

Lemma close_dropdown_closed_same d doc :
  dropdown_closed doc d → close_dropdown d doc = doc.
Proof.
  intros [Hcls Htg]. unfold close_dropdown.
  rewrite remove_class_absent by done.
  destruct (select_in doc d dropdownToggleSelector) as [tg|] eqn:E; [|done].
  apply set_attribute_same. by apply Htg.
Qed.

Lemma close_dropdowns_closed_same ds doc :
  (∀ d, d ∈ ds → dropdown_closed doc d) → close_dropdowns ds doc = doc.
Proof.
  induction ds as [|d ds IH]; intros H; [done|].
  unfold close_dropdowns in *. simpl.
  rewrite close_dropdown_closed_same by (apply H; set_solver).
  apply IH. intros d' Hd'. apply H. set_solver.
Qed.

Lemma menu_closed_doc_same t m b doc :
  menu_closed doc t m b → menu_closed_doc t m b doc = doc.
Proof.
  intros (Ha & Hm & Hb). unfold menu_closed_doc.
  rewrite set_attribute_same by done.
  rewrite (remove_class_absent m) by done.
  by apply remove_class_absent.
Qed.

(** X11. Closing a closed menu changes nothing in the document, and so
    closing twice is closing once. When the toggle has
    [aria-expanded="false"], the menu lacks [is-active], the body lacks
    [menu-open] and every dropdown is closed, [closeMobileMenu] leaves
    the document as it is; after one run the page is in that state. *)
Theorem closeMobileMenu_idempotent env s t m b :
  cached env s →
  menuToggle env = Some t → navMenu env = Some m → body env = Some b →
  (menu_closed (dom s) t m b →
   (∀ d, is_dropdown (dom s) d → dropdown_closed (dom s) d) →
   dom (exec (closeMobileMenu env) s) = dom s) ∧
  dom (exec (closeMobileMenu env) (exec (closeMobileMenu env) s))
  = dom (exec (closeMobileMenu env) s).
Proof.
  intros Hc Ht Hm Hb.
  assert (Hfix : ∀ s0, cached env s0 → menu_closed (dom s0) t m b →
            (∀ d, is_dropdown (dom s0) d → dropdown_closed (dom s0) d) →
            dom (exec (closeMobileMenu env) s0) = dom s0).
  { intros s0 Hc0 Hmenu Hdd. unfold exec.
    rewrite (closeMobileMenu_run env t m b) by done. simpl.
    rewrite menu_closed_doc_same by done.
    apply close_dropdowns_closed_same. intros d Hd. apply Hdd.
    by eapply cached_navDropdowns. }
  split; [by apply Hfix|].
  destruct (closeMobileMenu_closes env s t m b Hc Ht Hm Hb)
    as (_ & Hmenu & Hdd).
  apply Hfix; [|done..].
  eapply cached_same_markup; [| |exact Hc].
  - unfold exec. rewrite (closeMobileMenu_run env t m b) by done. simpl.
    by rewrite skeleton_close_dropdowns, skeleton_menu_closed_doc.
  - unfold exec. by rewrite (closeMobileMenu_run env t m b).
Qed.

Lemma closeMobileMenu_idempotent_witness :
  let close := closeMobileMenu demo_env in
  dom (exec close (exec close (demo_open 800)))
  = dom (exec close (demo_open 800)).
Proof.
  pose proof (closeMobileMenu_idempotent demo_env (demo_open 800) 1 2 0) as H.
  cbv zeta.
  assert (C : cached demo_env (demo_open 800))
    by (split; [vm_compute; reflexivity|vm_compute; lia]).
  exact (proj2 (H C eq_refl eq_refl eq_refl)).
Defined.

Lemma markup_eq_fields e e' :
  markup e' = markup e →
  tagName e' = tagName e ∧ parentNode e' = parentNode e ∧
  (∀ c, c ∉ state_classes → c ∈ classList e' ↔ c ∈ classList e) ∧
  (∀ a, a ≠ "aria-expanded" → attributes e' !! a = attributes e !! a).
Proof.
  unfold markup. intros [= Htag Hpar Hcls Hattr]. split_and!; [done..| |].
  - intros c Hc.
    assert (c ∈ classList e' ∖ state_classes ↔ c ∈ classList e ∖ state_classes)
      as Hiff by (by rewrite Hcls).
    set_solver.
  - intros a Ha.
    rewrite <- (lookup_delete_ne (attributes e') "aria-expanded" a) by done.
    rewrite <- (lookup_delete_ne (attributes e) "aria-expanded" a) by done.
    by rewrite Hattr.
Qed.

(** X12. What no step ever does. A listener, the frame callback or a
    change of viewport neither adds nor removes an element, a listener or
    the body; every element keeps its tag, its parent, its classes other
    than [is-open], [is-active] and [menu-open], and its attributes other
    than [aria-expanded]. *)
Theorem steps_write_state_only env s s' :
  step env s s' →
  length (dom s') = length (dom s) ∧
  listeners s' = listeners s ∧
  documentBody s' = documentBody s ∧
  ∀ i e, dom s !! i = Some e →
    ∃ e', dom s' !! i = Some e' ∧
      tagName e' = tagName e ∧ parentNode e' = parentNode e ∧
      (∀ c, c ∉ state_classes → c ∈ classList e' ↔ c ∈ classList e) ∧
      (∀ a, a ≠ "aria-expanded" → attributes e' !! a = attributes e !! a).
Proof.
  intros Hstep.
  apply step_frame_conditions in Hstep as (Hsk & Hbody & Hls & _ & _).
  split_and!; [by apply skeleton_eq_length|done..|].
  intros i e He.
  assert (Hi : skeleton (dom s') !! i = Some (markup e)).
  { rewrite Hsk. unfold skeleton. by rewrite list_lookup_fmap, He. }
  unfold skeleton in Hi. rewrite list_lookup_fmap in Hi.
  destruct (dom s' !! i) as [e'|]; simpl in Hi; [|done].
  assert (Hmk : markup e' = markup e) by congruence.
  exists e'. split; [done|]. by apply markup_eq_fields.
Qed.

Lemma steps_write_state_only_witness :
  length (dom (demo_open 800)) = length (dom (demo_state 800)) ∧
  listeners (demo_open 800) = listeners (demo_state 800).
Proof.
  pose proof (steps_write_state_only demo_env (demo_state 800) (demo_open 800))
    as H.
  assert (S : step demo_env (demo_state 800) (demo_open 800)).
  { apply (step_listener demo_env
             (mkListener (OnElement 1) "click" ToggleMobileMenu)
             (mkEvent 1 "") (demo_state 800)).
    - vm_compute. repeat constructor.
    - vm_compute. repeat constructor. }
  exact (conj (proj1 (H S)) (proj1 (proj2 (H S)))).
Defined.

Lemma resizeCallback_refreshes env s :
  isDesktop (exec (resizeCallback env) s)
  = bool_decide (DESKTOP_BREAKPOINT ≤ innerWidth s)%Z ∧
  innerWidth (exec (resizeCallback env) s) = innerWidth s.
Proof.
  unfold exec, resizeCallback, updateDesktopState. run_script. simpl.
  set (s1 := set_isDesktop _ s).
  pose proof (closeMobileMenu_flags env (flags s1) s1 eq_refl) as Hflags.
  unfold flags, exec in Hflags. injection Hflags as Hdesk Hw _ _.
  destruct (bool_decide (DESKTOP_BREAKPOINT ≤ innerWidth s)%Z) eqn:E; simpl;
    [|done].
  split; [exact Hdesk|exact Hw].
Qed.

Lemma resize_to_reachable doc bodyEl width counter canFocus env s w :
  reachable (fresh_page doc bodyEl width counter canFocus) env s →
  resizeListener ∈ listeners s →
  reachable (fresh_page doc bodyEl width counter canFocus) env
    (resize_to w s) ∧
  resizeListener ∈ listeners (resize_to w s).
Proof.
  intros Hr Hl.
  assert (Hstep : step env (set_innerWidth w s) (resize_to w s)).
  { apply (step_listener env resizeListener (mkEvent 0 "")); done. }
  split.
  - eapply reachable_step; [|exact Hstep].
    eapply reachable_step; [exact Hr|]. apply step_viewport.
  - apply step_frame_conditions in Hstep as (_ & _ & -> & _). done.
Qed.

Lemma resize_burst_reachable doc bodyEl width counter canFocus env s ws :
  reachable (fresh_page doc bodyEl width counter canFocus) env s →
  resizeListener ∈ listeners s →
  reachable (fresh_page doc bodyEl width counter canFocus) env
    (resize_burst ws s) ∧
  resizeListener ∈ listeners (resize_burst ws s).
Proof.
  revert s. induction ws as [|w ws IH]; intros s Hr Hl; [done|].
  unfold resize_burst in *. simpl.
  destruct (resize_to_reachable _ _ _ _ _ _ _ w Hr Hl) as [Hr' Hl'].
  by apply IH.
Qed.

(** X13. Debouncing, seen from outside. After any burst of resize events
    on a page whose resize listener is registered, exactly one callback
    is pending; when the animation frame runs it, no callback is pending
    any more and the cached flag is the comparison of the last width of
    the burst with the breakpoint. The intermediate widths leave no
    trace. *)
Theorem resize_burst_then_frame doc bodyEl width counter canFocus env s ws w :
  reachable (fresh_page doc bodyEl width counter canFocus) env s →
  resizeListener ∈ listeners s →
  last ws = Some w →
  let s1 := resize_burst ws s in
  reachable (fresh_page doc bodyEl width counter canFocus) env s1 ∧
  ∃ h, pendingFrames s1 = [h] ∧
       let s2 := exec (runFrame env h) s1 in
       pendingFrames s2 = [] ∧
       innerWidth s2 = w ∧
       isDesktop s2 = bool_decide (DESKTOP_BREAKPOINT ≤ w)%Z.
Proof.
  intros Hr Hl Hlast s1.
  apply last_Some in Hlast as [ws' ->].
  pose proof (resize_burst_reachable _ _ _ _ _ _ _ ws' Hr Hl) as [Hr' Hl'].
  assert (Hs1 : s1 = resize_to w (resize_burst ws' s)).
  { unfold s1, resize_burst. by rewrite foldl_app. }
  split.
  { rewrite Hs1. by apply resize_to_reachable. }
  set (s0 := resize_burst ws' s) in *.
  pose proof (reachable_invariant _ _ _ _ _ _ _ Hr') as (_ & Hd & _).
  assert (Hd' : debounced (set_innerWidth w s0)) by exact Hd.
  set (s1' := set_resizeTimeout (Some (S (frameCounter s0)))
                (set_frames (S (frameCounter s0)) [S (frameCounter s0)]
                   (set_innerWidth w s0))).
  assert (Hrun : resize_to w s0 = s1').
  { unfold resize_to, exec. by rewrite (handleResize_run _ Hd'). }
  rewrite Hs1, Hrun. clear Hs1 s1.
  exists (S (frameCounter s0)). split; [done|]. cbv zeta.
  set (s2' := set_frames (frameCounter s1')
                (filter (λ h', h' ≠ S (frameCounter s0)) (pendingFrames s1')) s1').
  change (exec (runFrame env (S (frameCounter s0))) s1')
    with (exec (resizeCallback env) s2').
  destruct (resizeCallback_refreshes env s2') as [Hdesk Hw].
  pose proof (resizeCallback_backdrop env (backdrop s2') s2' eq_refl) as Hb.
  apply backdrop_fields in Hb as (_ & _ & _ & Hsch).
  unfold schedule in Hsch. injection Hsch as _ _ Hp.
  split_and!.
  - etransitivity; [exact Hp|]. unfold s2', s1'. simpl.
    by rewrite filter_cons_False, filter_nil by naive_solver.
  - etransitivity; [exact Hw|]. done.
  - etransitivity; [exact Hdesk|]. done.
Qed.

Lemma resize_burst_then_frame_witness :
  let s1 := resize_burst [1280; 600; 1100]%Z (demo_open 800) in
  ∃ h, pendingFrames s1 = [h] ∧
       isDesktop (exec (runFrame demo_env h) s1) = true.
Proof.
  pose proof (resize_burst_then_frame demo_doc (Some 0) 800 0
           (focusable_by_markup demo_doc) demo_env
                (demo_open 800) [1280; 600; 1100]%Z 1100%Z) as H.
  cbv zeta in H |- *.
  assert (R : reachable
                (fresh_page demo_doc (Some 0) 800 0
                   (focusable_by_markup demo_doc)) demo_env
                (demo_open 800)).
  { eapply reachable_step; [apply reachable_boot; vm_compute; reflexivity|].
    apply (step_listener demo_env
             (mkListener (OnElement 1) "click" ToggleMobileMenu)
             (mkEvent 1 "") (demo_state 800)).
    - vm_compute. repeat constructor.
    - vm_compute. repeat constructor. }
  assert (L : resizeListener ∈ listeners (demo_open 800))
    by (vm_compute; repeat constructor).
  destruct (H R L eq_refl) as (_ & h & Hp & _ & _ & Hd).
  exists h. split; [exact Hp|]. rewrite Hd. vm_compute. reflexivity.
Defined.

Lemma boot_listeners doc bodyEl width counter canFocus env s m :
  boot (fresh_page doc bodyEl width counter canFocus) = Some (env, s) →
  navMenu env = Some m →
  listeners s = wired_listeners env doc m.
Proof.
  unfold boot. rewrite load_run. intros [= <- <-] Hm.
  unfold exec. by rewrite (init_run _ _ m Hm).
Qed.

Lemma reachable_listeners doc bodyEl width counter canFocus env s m :
  reachable (fresh_page doc bodyEl width counter canFocus) env s →
  navMenu env = Some m →
  listeners s = wired_listeners env doc m ∧
  skeleton (dom s) = skeleton doc.
Proof.
  intros Hr Hm. induction Hr as [s Hb|s s' _ [IH1 IH2] Hstep].
  - split; [by eapply boot_listeners|].
    by apply boot_wiring in Hb as (_ & ? & _).
  - apply step_frame_conditions in Hstep as (Hsk & _ & Hl & _).
    split; congruence.
Qed.

Section Present.

Context (env : Env) (t m b : nat).
Context (Ht : menuToggle env = Some t) (Hm : navMenu env = Some m)
  (Hb : body env = Some b).

Lemma closeMobileMenu_completes s : completes (closeMobileMenu env) s.
Proof.
  unfold completes. rewrite (closeMobileMenu_run env t m b) by done.
  by eexists.
Qed.

Lemma when_closeMobileMenu_completes (c : bool) s :
  completes (when c (closeMobileMenu env)) s.
Proof. destruct c; [apply closeMobileMenu_completes|by eexists]. Qed.

Lemma toggleDropdown_completes d event s :
  is_Some (dropdown_toggle (dom s) d) →
  completes (toggleDropdown env d event) s.
Proof.
  intros [tg Htg]. unfold completes. destruct (isDesktop s) eqn:E.
  - rewrite toggleDropdown_desktop by done. by eexists.
  - rewrite toggleDropdown_mobile by done. simpl. rewrite Htg. by eexists.
Qed.

Lemma handleDropdownKeyboard_completes event s :
  (∀ d, closest (dom s) (target event) (ByClass "nav-dropdown") = Some d →
        is_Some (dropdown_toggle (dom s) d)) →
  completes (handleDropdownKeyboard env event) s.
Proof.
  intros Hd. unfold completes, handleDropdownKeyboard.
  erewrite bind_normal by apply closestTo_run.
  destruct (closest (dom s) (target event) (ByClass "nav-dropdown"))
    as [d|] eqn:Hc; unfold whenPresent; [|by eexists].
  set (s1 := set_queryLog _ s).
  destruct (Hd d eq_refl) as [tg Htg].
  assert (Hfirst : ∃ s2,
    when (bool_decide (key event = "Enter") || bool_decide (key event = " "))
      (desktop ← gets isDesktop;
       when (negb desktop) (toggleDropdown env d event)) s1
    = (Normal (), s2)).
  { destruct (_ || _); simpl; [|by eexists].
    run_script. destruct (isDesktop s1) eqn:E; simpl; [by eexists|].
    rewrite toggleDropdown_mobile by done. simpl.
    change (dom s1) with (dom s). rewrite Htg. by eexists. }
  destruct Hfirst as [s2 Hs2].
  erewrite bind_normal by exact Hs2.
  destruct (bool_decide (key event = "Escape")); simpl; [|by eexists].
  run_script. simpl.
  destruct (select_in _ _ _) as [tg'|]; [|by eexists].
  simpl. destruct (focusable s2 tg'); by eexists.
Qed.

End Present.

(** X14. On a page that has the menu toggle, the menu and the body, the
    listeners do not raise. In every state reachable from the freshly
    loaded page, every registered listener ends normally on every event:
    the tap listener of a dropdown because [init] registered it on that
    dropdown's toggle link only, the frame callback because the three
    elements exist. The keyboard listener is the exception made explicit:
    it ends normally provided the dropdown nearest to the target of the
    event has a toggle link. *)
Theorem listeners_complete doc bodyEl width counter canFocus env s t m b l
    event :
  reachable (fresh_page doc bodyEl width counter canFocus) env s →
  menuToggle env = Some t → navMenu env = Some m → body env = Some b →
  l ∈ listeners s →
  (handler l = DropdownKeyboard →
   ∀ d, closest (dom s) (target event) (ByClass "nav-dropdown") = Some d →
        is_Some (dropdown_toggle (dom s) d)) →
  completes (run env (handler l) event) s ∧
  ∀ h, completes (runFrame env h) s.
Proof.
  intros Hr Ht Hm Hb Hl Hkey.
  destruct (reachable_listeners _ _ _ _ _ _ _ m Hr Hm) as [Hls Hsk].
  split.
  - destruct (handler l) eqn:Hh; simpl.
    + unfold completes. rewrite (toggleMobileMenu_run env t m b) by done.
      by eexists.
    + apply toggleDropdown_completes.
      rewrite Hls in Hl. destruct l as [tgt ty h]. simpl in Hh. subst h.
      apply elem_of_wired_listeners in Hl.
      destruct Hl as [(? & _ & [=])|[(d' & _ & Hd)|[(j & _ & [=])|H]]].
      * apply elem_of_dropdown_listeners in Hd.
        destruct Hd as [(tg & Htg & [[= -> -> ->]|[=]])|[[=]|[=]]].
        exists tg. rewrite <- Htg. by apply dropdown_toggle_same.
      * destruct H as [[=]|[[=]|[=]]].
    + apply (handleDropdownKeyboard_completes env). auto.
    + unfold completes. rewrite dropdownMouseEnter_run. by eexists.
    + unfold completes. rewrite dropdownMouseLeave_run. by eexists.
    + unfold navLinkClick. run_script.
      apply (when_closeMobileMenu_completes env t m b Ht Hm Hb _ s).
    + unfold handleClickOutside. rewrite Ht, Hm. run_script.
      apply (when_closeMobileMenu_completes env t m b Ht Hm Hb _ s).
    + unfold completes, handleResize, requestAnimationFrame,
        cancelAnimationFrame.
      run_script. destruct (resizeTimeout s) as [[|h]|]; by eexists.
    + apply (when_closeMobileMenu_completes env t m b Ht Hm Hb).
  - intros h.
    set (s1 := set_frames (frameCounter s)
                 (filter (λ h', h' ≠ h) (pendingFrames s)) s).
    change (completes (resizeCallback env) s1).
    unfold resizeCallback, updateDesktopState. run_script. simpl.
    apply (when_closeMobileMenu_completes env t m b Ht Hm Hb).
Qed.

Lemma listeners_complete_witness :
  completes (toggleDropdown demo_env 3 (mkEvent 4 "")) demo_tapped.
Proof.
  pose proof (listeners_complete demo_doc (Some 0) 800 0
           (focusable_by_markup demo_doc) demo_env demo_tapped
                1 2 0 (mkListener (OnElement 4) "click" (DropdownClick 3))
                (mkEvent 4 "")) as H.
  assert (R : reachable
                (fresh_page demo_doc (Some 0) 800 0
                   (focusable_by_markup demo_doc)) demo_env
                demo_tapped).
  { eapply reachable_step; [apply reachable_boot; vm_compute; reflexivity|].
    apply (step_listener demo_env
             (mkListener (OnElement 4) "click" (DropdownClick 3))
             (mkEvent 4 "") (demo_state 800)).
    - vm_compute. repeat constructor.
    - vm_compute. repeat constructor. }
  assert (L : mkListener (OnElement 4) "click" (DropdownClick 3)
              ∈ listeners demo_tapped) by (vm_compute; repeat constructor).
  assert (K : handler (mkListener (OnElement 4) "click" (DropdownClick 3))
              = DropdownKeyboard →
              ∀ d, closest (dom demo_tapped) (target (mkEvent 4 ""))
                     (ByClass "nav-dropdown") = Some d →
                   is_Some (dropdown_toggle (dom demo_tapped) d))
    by (intros [=]).
  exact (proj1 (H R eq_refl eq_refl eq_refl L K)).
Defined.
